(** * go-logger: a leveled, scoped logging facade over zerolog

    Shallow embedding of [logger.go] and of the no-op logger, together with
    the small part of the Go standard library ([strings], [unicode/utf8],
    [fmt], [os]) and of the zerolog backend that the package calls.

    Go strings are byte sequences: they are Rocq [string]s, whose characters
    are the 256 bytes.  Go [int]-like values are [Z]. *)

From Stdlib Require Import ZArith Ascii String List Bool Lia DecimalString.
From stdpp Require Import base option list gmap.
Import ListNotations.

Local Open Scope string_scope.
Local Open Scope Z_scope.

(** ** Bytes *)

Definition byte_val (c : ascii) : Z := Z.of_N (N_of_ascii c).
Definition byte_of (z : Z) : ascii := ascii_of_N (Z.to_N z).

Definition is_upper_byte (c : ascii) : bool :=
  (65 <=? byte_val c) && (byte_val c <=? 90).

Definition is_lower_byte (c : ascii) : bool :=
  (97 <=? byte_val c) && (byte_val c <=? 122).

(** [utf8.RuneSelf]: bytes below it are single-byte runes. *)
Definition RuneSelf : Z := 128.

Fixpoint string_forallb (p : ascii -> bool) (s : string) : bool :=
  match s with
  | EmptyString => true
  | String c r => p c && string_forallb p r
  end.

Fixpoint string_existsb (p : ascii -> bool) (s : string) : bool :=
  match s with
  | EmptyString => false
  | String c r => p c || string_existsb p r
  end.

Fixpoint string_map (f : ascii -> ascii) (s : string) : string :=
  match s with
  | EmptyString => EmptyString
  | String c r => String (f c) (string_map f r)
  end.

(** ** unicode/utf8 (Go standard library) *)

Module utf8.

Definition RuneError : Z := 65533.
Definition MaxRune : Z := 1114111.

(** The accept range of the second byte, by first byte
    ([first] and [acceptRanges] of utf8.go); [None] for a byte that cannot
    start a multi-byte sequence. *)
Definition lead (b0 : Z) : option (nat * Z * Z) :=
  if (194 <=? b0) && (b0 <=? 223) then Some (2%nat, 128, 191)
  else if b0 =? 224 then Some (3%nat, 160, 191)
  else if (225 <=? b0) && (b0 <=? 236) then Some (3%nat, 128, 191)
  else if b0 =? 237 then Some (3%nat, 128, 159)
  else if (238 <=? b0) && (b0 <=? 239) then Some (3%nat, 128, 191)
  else if b0 =? 240 then Some (4%nat, 144, 191)
  else if (241 <=? b0) && (b0 <=? 243) then Some (4%nat, 128, 191)
  else if b0 =? 244 then Some (4%nat, 128, 143)
  else None.

Definition in_range (lo hi b : Z) : bool := (lo <=? b) && (b <=? hi).
Definition cont (b : Z) : bool := in_range 128 191 b.

(** [DecodeRuneInString] on a non-empty string: the rune and its width in
    bytes.  A malformed or truncated sequence yields [(RuneError, 1)]. *)
Definition DecodeRune (c : ascii) (rest : string) : Z * nat :=
  let b0 := byte_val c in
  if b0 <? RuneSelf then (b0, 1%nat)
  else
    match lead b0 with
    | None => (RuneError, 1%nat)
    | Some (sz, lo, hi) =>
        match rest with
        | String c1 r1 =>
            let b1 := byte_val c1 in
            if negb (in_range lo hi b1) then (RuneError, 1%nat)
            else
              match sz with
              | 2%nat =>
                  (Z.lor (Z.shiftl (Z.land b0 31) 6) (Z.land b1 63), 2%nat)
              | _ =>
                  match r1 with
                  | String c2 r2 =>
                      let b2 := byte_val c2 in
                      if negb (cont b2) then (RuneError, 1%nat)
                      else
                        match sz with
                        | 3%nat =>
                            (Z.lor (Z.shiftl (Z.land b0 15) 12)
                               (Z.lor (Z.shiftl (Z.land b1 63) 6)
                                  (Z.land b2 63)), 3%nat)
                        | _ =>
                            match r2 with
                            | String c3 _ =>
                                let b3 := byte_val c3 in
                                if negb (cont b3) then (RuneError, 1%nat)
                                else
                                  (Z.lor (Z.shiftl (Z.land b0 7) 18)
                                     (Z.lor (Z.shiftl (Z.land b1 63) 12)
                                        (Z.lor (Z.shiftl (Z.land b2 63) 6)
                                           (Z.land b3 63))), 4%nat)
                            | EmptyString => (RuneError, 1%nat)
                            end
                        end
                  | EmptyString => (RuneError, 1%nat)
                  end
              end
        | EmptyString => (RuneError, 1%nat)
        end
    end.

Fixpoint drop (n : nat) (s : string) : string :=
  match n, s with
  | S n', String _ r => drop n' r
  | _, _ => s
  end.

(** The runes a [for _, c := range s] loop visits.  The fuel is the number
    of bytes left, which every step decreases. *)
Fixpoint runes_fuel (fuel : nat) (s : string) : list Z :=
  match fuel, s with
  | S f, String c rest =>
      let '(r, w) := DecodeRune c rest in
      r :: runes_fuel f (drop (Nat.pred w) rest)
  | _, _ => []
  end.

Definition runes (s : string) : list Z := runes_fuel (String.length s) s.

(** [AppendRune]: the UTF-8 encoding of a rune; surrogates and values
    outside the Unicode range are encoded as [RuneError]. *)
Definition enc3 (r : Z) : string :=
  String (byte_of (Z.lor 224 (Z.shiftr r 12)))
    (String (byte_of (Z.lor 128 (Z.land (Z.shiftr r 6) 63)))
       (String (byte_of (Z.lor 128 (Z.land r 63))) EmptyString)).

Definition EncodeRune (r : Z) : string :=
  if (0 <=? r) && (r <=? 127) then String (byte_of r) EmptyString
  else if (0 <=? r) && (r <=? 2047) then
    String (byte_of (Z.lor 192 (Z.shiftr r 6)))
      (String (byte_of (Z.lor 128 (Z.land r 63))) EmptyString)
  else if (r <? 0) || (MaxRune <? r) || ((55296 <=? r) && (r <=? 57343))
  then enc3 RuneError
  else if r <=? 65535 then enc3 r
  else
    String (byte_of (Z.lor 240 (Z.shiftr r 18)))
      (String (byte_of (Z.lor 128 (Z.land (Z.shiftr r 12) 63)))
         (String (byte_of (Z.lor 128 (Z.land (Z.shiftr r 6) 63)))
            (String (byte_of (Z.lor 128 (Z.land r 63))) EmptyString))).

(** Whether [s] is valid UTF-8 once the [skip] bytes that finish the
    sequence under way are passed: no decoding step, started where the
    previous one ended, yields [(RuneError, 1)]. *)
Fixpoint valid_from (skip : nat) (s : string) : bool :=
  match s with
  | EmptyString => true
  | String c rest =>
      match skip with
      | S k => valid_from k rest
      | O =>
          let '(r, w) := DecodeRune c rest in
          negb ((r =? RuneError) && Nat.eqb w 1)
          && valid_from (Nat.pred w) rest
      end
  end.

(** [utf8.ValidString]. *)
Definition ValidString (s : string) : bool := valid_from 0 s.

End utf8.

(** ** strings and unicode (Go standard library)

    The case tables of Go's [unicode] package ([unicode.CaseRanges]) live in
    the standard library; the development is parametric in what they do to
    the runes above [unicode.MaxASCII]. *)

Section GoStrings.

(** [unicode.To(unicode.LowerCase, r)] and [unicode.To(unicode.UpperCase, r)]
    for [r] above [MaxASCII]. *)
Variable lower_table : Z -> Z.
Variable upper_table : Z -> Z.

Definition unicode_ToLower (r : Z) : Z :=
  if r <=? 127 then
    (if (65 <=? r) && (r <=? 90) then r + 32 else r)
  else lower_table r.

Definition unicode_ToUpper (r : Z) : Z :=
  if r <=? 127 then
    (if (97 <=? r) && (r <=? 122) then r - 32 else r)
  else upper_table r.

(** [strings.Map]: every rune of [s] replaced by its image, a negative
    image dropping the rune. *)
Definition strings_Map (mapping : Z -> Z) (s : string) : string :=
  fold_right
    (fun c acc =>
       let r := mapping c in
       if 0 <=? r then utf8.EncodeRune r ++ acc else acc)
    EmptyString (utf8.runes s).

Definition lower_byte (c : ascii) : ascii :=
  if is_upper_byte c then byte_of (byte_val c + 32) else c.

Definition upper_byte (c : ascii) : ascii :=
  if is_lower_byte c then byte_of (byte_val c - 32) else c.

Definition isASCII (s : string) : bool :=
  string_forallb (fun c => byte_val c <? RuneSelf) s.

(** [strings.ToLower]: an ASCII-only string is lowered byte by byte (and
    returned as it is when it has no upper-case letter); any other string
    goes through [Map(unicode.ToLower, s)]. *)
Definition strings_ToLower (s : string) : string :=
  if isASCII s then
    (if negb (string_existsb is_upper_byte s) then s
     else string_map lower_byte s)
  else strings_Map unicode_ToLower s.

Definition strings_ToUpper (s : string) : string :=
  if isASCII s then
    (if negb (string_existsb is_lower_byte s) then s
     else string_map upper_byte s)
  else strings_Map unicode_ToUpper s.

End GoStrings.

(** ** fmt and errors (Go standard library) *)

Definition is_verb (c : ascii) (wrap : bool) : bool :=
  Ascii.eqb c "s" || Ascii.eqb c "v" || (wrap && Ascii.eqb c "w").

Fixpoint extra_operands (a : list string) : string :=
  match a with
  | [] => ""
  | [x] => "string=" ++ x
  | x :: r => "string=" ++ x ++ ", " ++ extra_operands r
  end.

(** [fmt.Sprintf] on string operands, for the directives the package uses:
    [%s] (and [%v], which prints a string the same way), [%%] and literal
    text.  [wrap] makes [%w] stand for [%v], as [fmt.Errorf] does.  A missing
    operand, a surplus operand and a verb that does not apply to strings are
    reported in the output the way Go reports them; flags, widths and the
    verbs [%q], [%x], [%X] are outside the fragment. *)
Fixpoint doPrintf (wrap : bool) (format : string) (a : list string) : string :=
  match format with
  | EmptyString =>
      match a with
      | [] => ""
      | _ => "%!(EXTRA " ++ extra_operands a ++ ")"
      end
  | String "%" EmptyString => "%!(NOVERB)"
  | String "%" (String v rest) =>
      if Ascii.eqb v "%" then String "%" (doPrintf wrap rest a)
      else
        match a with
        | [] => "%!" ++ String v "(MISSING)" ++ doPrintf wrap rest []
        | x :: a' =>
            if is_verb v wrap then x ++ doPrintf wrap rest a'
            else
              "%!" ++ String v "(string=" ++ x ++ ")" ++ doPrintf wrap rest a'
        end
  | String c rest => String c (doPrintf wrap rest a)
  end.

Definition Sprintf (format : string) (a : list string) : string :=
  doPrintf false format a.

(** A Go [error] value: a plain error carrying its text, or the wrapper
    [fmt.Errorf] builds for [%w], which keeps the wrapped error. *)
Inductive error : Type :=
| plainError (text : string)
| wrapError (msg : string) (err : error).

Definition Error (e : error) : string :=
  match e with
  | plainError t => t
  | wrapError m _ => m
  end.

(** [errors.Unwrap]. *)
Definition Unwrap (e : error) : option error :=
  match e with
  | plainError _ => None
  | wrapError _ inner => Some inner
  end.

(** [fmt.Errorf] with one error operand bound to [%w]. *)
Definition Errorf (format : string) (err : error) : error :=
  wrapError (doPrintf true format [Error err]) err.

(** ** io and os (Go standard library) *)

(** The [io.Writer]s the program hands around: the process's standard
    output, a caller's in-memory writer, or an open file. *)
Inductive io_Writer : Type :=
| Stdout
| Buffer (id : nat)
| File (name : string).

Inductive open_flag : Type := O_APPEND | O_CREATE | O_WRONLY.

(** What the operating system answers: [None] is success, [Some e] the error
    returned by [os.MkdirAll] on a directory or by [os.OpenFile] on a file. *)
Record OS : Type := {
  MkdirAll_result : string -> option error;
  OpenFile_result : string -> option error
}.

(** ** The zerolog backend

    Only what the facade configures and calls: the level constants, the level
    check of a logger, the fields of an event, and the delivery of an accepted
    event to every writer. *)

(** The dynamic values a console formatter can be handed ([interface{}]). *)
Inductive any : Type :=
| anyString (s : string)
| anyNumber (z : Z)
| anyBool (b : bool)
| anyNil.

Module zerolog.

Definition Level : Type := Z.

Definition DebugLevel : Level := 0.
Definition InfoLevel : Level := 1.
Definition WarnLevel : Level := 2.
Definition ErrorLevel : Level := 3.
Definition FatalLevel : Level := 4.
Definition PanicLevel : Level := 5.
Definition NoLevel : Level := 6.
Definition Disabled : Level := 7.
Definition TraceLevel : Level := -1.

(** The global level: zerolog starts at [TraceLevel] and the package never
    calls [SetGlobalLevel]. *)
Definition GlobalLevel : Level := TraceLevel.

Definition TimeFormatUnix : string := "".
Definition ErrorFieldName : string := "error".

(** [Level.String]. *)
Definition Level_String (l : Level) : string :=
  if l =? TraceLevel then "trace"
  else if l =? DebugLevel then "debug"
  else if l =? InfoLevel then "info"
  else if l =? WarnLevel then "warn"
  else if l =? ErrorLevel then "error"
  else if l =? FatalLevel then "fatal"
  else if l =? PanicLevel then "panic"
  else if l =? Disabled then "disabled"
  else if l =? NoLevel then ""
  else NilZero.string_of_int (Z.to_int l).

Record ConsoleWriter : Type := {
  Out : io_Writer;
  TimeFormat : string;
  FormatLevel : any -> string
}.

(** A writer of a [MultiLevelWriter]: a console writer, or a destination
    that receives the serialized record as it is. *)
Inductive Writer : Type :=
| console (c : ConsoleWriter)
| raw (o : io_Writer).

(** A logger value: its writers, its threshold and whether the timestamp
    hook of [With().Timestamp()] is installed. *)
Record Logger : Type := {
  w : list Writer;
  level : Level;
  timestamp : bool
}.

Definition MultiLevelWriter (writers : list Writer) : list Writer := writers.

(** [zerolog.New(w)]: a logger that lets every level through. *)
Definition New (ws : list Writer) : Logger :=
  {| w := ws; level := TraceLevel; timestamp := false |}.

(** [Logger.Level(lvl)]: the same logger with another threshold. *)
Definition SetLevel (lvl : Level) (l : Logger) : Logger :=
  {| w := w l; level := lvl; timestamp := timestamp l |}.

(** [With()] copies the logger into a context, [Timestamp()] installs the
    hook, [Logger()] gives the logger back. *)
Definition With (l : Logger) : Logger := l.

Definition Timestamp (c : Logger) : Logger :=
  {| w := w c; level := level c; timestamp := true |}.

Definition ContextLogger (c : Logger) : Logger := c.

(** [should]: whether an event at [lvl] passes the logger's threshold and
    the global one. *)
Definition should (l : Logger) (lvl : Level) : bool :=
  negb ((lvl <? level l) || (lvl <? GlobalLevel)).

(** An event under construction; [None] is zerolog's nil event, on which
    every method does nothing. *)
Record Event : Type := {
  ev_level : Level;
  ev_fields : list (string * string)
}.

Definition newEvent (l : Logger) (lvl : Level) : option Event :=
  if should l lvl then Some {| ev_level := lvl; ev_fields := [] |} else None.

(** [Event.Err]: adds the error's text under [ErrorFieldName]; a nil error
    adds nothing. *)
Definition Event_Err (e : option Event) (err : option error) : option Event :=
  match e, err with
  | Some ev, Some x =>
      Some {| ev_level := ev_level ev;
              ev_fields := ev_fields ev ++ [(ErrorFieldName, Error x)] |}
  | _, _ => e
  end.

(** [Logger.Debug()], [Logger.Info()], [Logger.Warn()], [Logger.Error()]
    and [Logger.WithLevel(lvl)]. *)
Definition Debug (l : Logger) : option Event := newEvent l DebugLevel.
Definition Info (l : Logger) : option Event := newEvent l InfoLevel.
Definition Warn (l : Logger) : option Event := newEvent l WarnLevel.
Definition Error (l : Logger) : option Event := newEvent l ErrorLevel.

Definition WithLevel (l : Logger) (lvl : Level) : option Event :=
  if lvl =? TraceLevel then newEvent l TraceLevel
  else if lvl =? DebugLevel then Debug l
  else if lvl =? InfoLevel then Info l
  else if lvl =? WarnLevel then Warn l
  else if lvl =? Disabled then None
  else newEvent l lvl.

(** What a string value reads as in the serialized record.  The JSON
    encoder ([AppendString]) walks the string rune by rune: the bytes of a
    well-formed sequence are kept, and each byte at which decoding yields
    [(RuneError, 1)] is written as U+FFFD.  (Its escapes for quotes and
    control characters are undone by whoever reads the record, the console
    writer included.)  [skip] counts the bytes left of the sequence under
    way. *)
Fixpoint encoded_from (skip : nat) (s : string) : string :=
  match s with
  | EmptyString => EmptyString
  | String c rest =>
      match skip with
      | S k => String c (encoded_from k rest)
      | O =>
          let '(r, w) := utf8.DecodeRune c rest in
          if (r =? utf8.RuneError) && Nat.eqb w 1
          then utf8.EncodeRune utf8.RuneError ++ encoded_from 0 rest
          else String c (encoded_from (Nat.pred w) rest)
      end
  end.

Definition json_text (s : string) : string := encoded_from 0 s.

(** The serialized record: the level tag (absent at [NoLevel]), the fields,
    the timestamp when the hook is installed, the message (absent when
    empty). *)
Record Entry : Type := {
  r_level : option string;
  r_fields : list (string * string);
  r_time : option Z;
  r_message : option string
}.

(** What a console writer prints for a record: the timestamp, the level
    code chosen by [FormatLevel], the message and the fields. *)
Record Line : Type := {
  l_time : option Z;
  l_timeformat : string;
  l_level : string;
  l_message : option string;
  l_fields : list (string * string)
}.

Inductive payload : Type :=
| json (r : Entry)
| text (l : Line).

Definition console_line (c : ConsoleWriter) (r : Entry) : Line :=
  {| l_time := r_time r;
     l_timeformat := TimeFormat c;
     l_level := FormatLevel c
                  (match r_level r with
                   | Some s => anyString s
                   | None => anyNil
                   end);
     l_message := r_message r;
     l_fields := r_fields r |}.

(** What one writer sends to its destination for a record. *)
Definition deliver (r : Entry) (wr : Writer) : io_Writer * payload :=
  match wr with
  | console c => (Out c, text (console_line c r))
  | raw o => (o, json r)
  end.

End zerolog.

(** ** The program state

    The heap holds the structs the package allocates; the trace lists, in
    order, the calls made to the operating system and the payloads written to
    each destination.  The clock is read once per timestamped record. *)

(** [type logger struct { zl zerolog.Logger; scope string }] *)
Record logger : Type := {
  zl : zerolog.Logger;
  scope : string
}.

Inductive object : Type :=
| objLogger (l : logger)
| objNoop.

(** A value of the interface [Logger]: its dynamic type and the pointer. *)
Inductive Logger : Type :=
| ptrLogger (p : nat)
| ptrNoop (p : nat).

(** zerolog's package-level hook for the text of the level field. *)
Record globals : Type := {
  LevelFieldMarshalFunc : zerolog.Level -> string
}.

Inductive effect : Type :=
| MkdirAll (dir : string) (perm : Z)
| OpenFile (name : string) (flags : list open_flag) (perm : Z)
| Write (dst : io_Writer) (p : zerolog.payload).

Record world : Type := {
  heap : list object;
  trace : list effect;
  ticks : nat;
  clock : nat -> Z;
  os : OS;
  glob : globals
}.

Definition set_heap (h : list object) (σ : world) : world :=
  {| heap := h; trace := trace σ; ticks := ticks σ; clock := clock σ;
     os := os σ; glob := glob σ |}.

Definition perform (es : list effect) (σ : world) : world :=
  {| heap := heap σ; trace := trace σ ++ es; ticks := ticks σ;
     clock := clock σ; os := os σ; glob := glob σ |}.

Definition tick (σ : world) : world :=
  {| heap := heap σ; trace := trace σ; ticks := S (ticks σ);
     clock := clock σ; os := os σ; glob := glob σ |}.

(** [&T{...}]: a fresh cell at the end of the heap. *)
Definition alloc (o : object) (σ : world) : nat * world :=
  (length (heap σ), set_heap (heap σ ++ [o]) σ).

Definition deref (p : nat) (σ : world) : option logger :=
  match heap σ !! p with
  | Some (objLogger l) => Some l
  | _ => None
  end.

(** The record an accepted event serializes to: every string value, the
    level tag, the field names and values and the message, as the encoder
    writes it. *)
Definition record_of (σ : world) (l : zerolog.Logger) (ev : zerolog.Event)
    (msg : string) : zerolog.Entry :=
  {| zerolog.r_level :=
       if zerolog.ev_level ev =? zerolog.NoLevel then None
       else
         Some (zerolog.json_text
                 (LevelFieldMarshalFunc (glob σ) (zerolog.ev_level ev)));
     zerolog.r_fields :=
       map (fun kv => (zerolog.json_text (fst kv), zerolog.json_text (snd kv)))
         (zerolog.ev_fields ev);
     zerolog.r_time :=
       if zerolog.timestamp l then Some (clock σ (ticks σ)) else None;
     zerolog.r_message :=
       match msg with
       | EmptyString => None
       | _ => Some (zerolog.json_text msg)
       end |}.

(** The writes one record causes on the writers of a logger. *)
Definition writes (r : zerolog.Entry) (l : zerolog.Logger) : list effect :=
  map (fun wr => let '(d, p) := zerolog.deliver r wr in Write d p)
      (zerolog.w l).

(** [Event.Msg]: nothing on a nil event; otherwise the hooks run, the message
    is added and the record goes to every writer of the logger. *)
Definition zerolog_Msg (l : zerolog.Logger) (e : option zerolog.Event)
    (msg : string) (σ : world) : world :=
  match e with
  | None => σ
  | Some ev =>
      let r := record_of σ l ev msg in
      let σ1 := if zerolog.timestamp l then tick σ else σ in
      if zerolog.ev_level ev =? zerolog.Disabled then σ1
      else perform (writes r l) σ1
  end.

(** [Event.Msgf]: the message is formatted only for a non-nil event. *)
Definition zerolog_Msgf (l : zerolog.Logger) (e : option zerolog.Event)
    (format : string) (a : list string) (σ : world) : world :=
  match e with
  | None => σ
  | Some _ => zerolog_Msg l e (Sprintf format a) σ
  end.

(** ** Package logger *)

Definition Level : Type := Z.

Definition LevelDebug : Level := 0.
Definition LevelInfo : Level := 1.
Definition LevelEvent : Level := 2.
Definition LevelDisabled : Level := 3.

(** [const eventLevel = zerolog.Level(2)] *)
Definition eventLevel : zerolog.Level := 2.

Definition levelMap : gmap Z Z :=
  <[LevelDebug := zerolog.DebugLevel]>
    (<[LevelInfo := zerolog.InfoLevel]>
       (<[LevelEvent := eventLevel]>
          (<[LevelDisabled := zerolog.Disabled]> ∅))).

Record options : Type := {
  filePath : string;
  writer : io_Writer
}.

Definition Option : Type := options -> options.

Definition WithFile (path : string) : Option :=
  fun o => {| filePath := path; writer := writer o |}.

Definition WithWriter (wr : io_Writer) : Option :=
  fun o => {| filePath := filePath o; writer := wr |}.

Definition ESC : string := String "027" EmptyString.
Definition colorReset : string := ESC ++ "[0m".
Definition colorRed : string := ESC ++ "[31m".
Definition colorGreen : string := ESC ++ "[32m".
Definition colorYellow : string := ESC ++ "[33m".
Definition colorCyan : string := ESC ++ "[36m".
Definition colorWhite : string := ESC ++ "[37m".

(** [func init()]: installs the package's level marshaller. *)
Definition init (g : globals) : globals :=
  {| LevelFieldMarshalFunc :=
       fun l => if l =? eventLevel then "event" else zerolog.Level_String l |}.

Section Package.

Variable lower_table : Z -> Z.
Variable upper_table : Z -> Z.

(** [filepath.Dir] (Go standard library). *)
Variable filepath_Dir : string -> string.

Definition ParseLevel (s : string) : Level :=
  let t := strings_ToLower lower_table s in
  if String.eqb t "debug" then LevelDebug
  else if String.eqb t "info" then LevelInfo
  else if String.eqb t "event" then LevelEvent
  else LevelDisabled.

(** The [FormatLevel] closure of [newConsoleWriter]. *)
Definition formatLevel (i : any) : string :=
  match i with
  | anyString s =>
      if String.eqb s "event" then colorWhite ++ "EVT" ++ colorReset
      else if String.eqb s "info" then colorGreen ++ "INF" ++ colorReset
      else if String.eqb s "debug" then colorCyan ++ "DBG" ++ colorReset
      else if String.eqb s "error" then colorRed ++ "ERR" ++ colorReset
      else if String.eqb s "warn" then colorYellow ++ "WRN" ++ colorReset
      else strings_ToUpper upper_table s
  | _ => "???"
  end.

Definition newConsoleWriter (wr : io_Writer) : zerolog.ConsoleWriter :=
  {| zerolog.Out := wr;
     zerolog.TimeFormat := zerolog.TimeFormatUnix;
     zerolog.FormatLevel := formatLevel |}.

(** [zlevel, ok := levelMap[level]; if !ok { zlevel = zerolog.Disabled }] *)
Definition zlevel (lvl : Level) : zerolog.Level :=
  match levelMap !! lvl with
  | Some z => z
  | None => zerolog.Disabled
  end.

(** The tail of [New], once the writers are assembled. *)
Definition build (lvl : Level) (writers : list zerolog.Writer) (σ : world)
    : world * (option Logger * option error) :=
  let z :=
    zerolog.ContextLogger
      (zerolog.Timestamp
         (zerolog.With
            (zerolog.SetLevel (zlevel lvl)
               (zerolog.New (zerolog.MultiLevelWriter writers))))) in
  let '(p, σ') := alloc (objLogger {| zl := z; scope := "main" |}) σ in
  (σ', (Some (ptrLogger p), None)).

Definition configure (opts : list Option) : options :=
  fold_left (fun cfg opt => opt cfg) opts
    {| filePath := ""; writer := Stdout |}.

Definition New (lvl : Level) (opts : list Option) (σ : world)
    : world * (option Logger * option error) :=
  let cfg := configure opts in
  let writers := [zerolog.console (newConsoleWriter (writer cfg))] in
  if String.eqb (filePath cfg) "" then build lvl writers σ
  else
    let dir := filepath_Dir (filePath cfg) in
    let σ1 := perform [MkdirAll dir 488] σ in
    match MkdirAll_result (os σ) dir with
    | Some err =>
        (σ1, (None, Some (Errorf "logger: create log directory: %w" err)))
    | None =>
        let σ2 :=
          perform [OpenFile (filePath cfg) [O_APPEND; O_CREATE; O_WRONLY] 420]
            σ1 in
        match OpenFile_result (os σ) (filePath cfg) with
        | Some err =>
            (σ2, (None, Some (Errorf "logger: open log file: %w" err)))
        | None =>
            build lvl (writers ++ [zerolog.raw (File (filePath cfg))]) σ2
        end
    end.

End Package.

(** *** Methods of [*logger] *)

Definition logger_Info (l : logger) (msg : string) (σ : world) : world :=
  zerolog_Msgf (zl l) (zerolog.Info (zl l)) "[%s] %s" [scope l; msg] σ.

Definition logger_Event (l : logger) (msg : string) (σ : world) : world :=
  zerolog_Msgf (zl l) (zerolog.WithLevel (zl l) eventLevel)
    "-%s (%s)" [msg; scope l] σ.

Definition logger_Debug (l : logger) (key value : string) (σ : world)
    : world :=
  zerolog_Msgf (zl l) (zerolog.Debug (zl l))
    " %s: %s (%s)" [key; value; scope l] σ.

Definition logger_Error (l : logger) (err : option error) (msg : string)
    (σ : world) : world :=
  zerolog_Msgf (zl l) (zerolog.Event_Err (zerolog.Error (zl l)) err)
    "[%s] %s" [scope l; msg] σ.

Definition logger_Scope (l : logger) (name : string) (σ : world)
    : Logger * world :=
  let '(p, σ') :=
    alloc
      (objLogger {| zl := zerolog.ContextLogger (zerolog.With (zl l));
                    scope := name |}) σ in
  (ptrLogger p, σ').

(** *** The no-op logger *)

Definition NewNoop (σ : world) : Logger * world :=
  let '(p, σ') := alloc objNoop σ in (ptrNoop p, σ').

Definition NoopLogger_Info (n : nat) (msg : string) (σ : world) : world := σ.
Definition NoopLogger_Event (n : nat) (msg : string) (σ : world) : world := σ.
Definition NoopLogger_Debug (n : nat) (key value : string) (σ : world)
    : world := σ.
Definition NoopLogger_Error (n : nat) (err : option error) (msg : string)
    (σ : world) : world := σ.
Definition NoopLogger_Scope (n : nat) (name : string) (σ : world)
    : Logger * world := (ptrNoop n, σ).

(** *** Calls through the interface

    A method of [*logger] reads its receiver, so the pointer must be live
    ([None] stands for Go's nil-pointer panic); the methods of [*NoopLogger]
    never touch theirs. *)

Definition Logger_Info (L : Logger) (msg : string) (σ : world)
    : option world :=
  match L with
  | ptrLogger p => l ← deref p σ; Some (logger_Info l msg σ)
  | ptrNoop n => Some (NoopLogger_Info n msg σ)
  end.

Definition Logger_Event (L : Logger) (msg : string) (σ : world)
    : option world :=
  match L with
  | ptrLogger p => l ← deref p σ; Some (logger_Event l msg σ)
  | ptrNoop n => Some (NoopLogger_Event n msg σ)
  end.

Definition Logger_Debug (L : Logger) (key value : string) (σ : world)
    : option world :=
  match L with
  | ptrLogger p => l ← deref p σ; Some (logger_Debug l key value σ)
  | ptrNoop n => Some (NoopLogger_Debug n key value σ)
  end.

Definition Logger_Error (L : Logger) (err : option error) (msg : string)
    (σ : world) : option world :=
  match L with
  | ptrLogger p => l ← deref p σ; Some (logger_Error l err msg σ)
  | ptrNoop n => Some (NoopLogger_Error n err msg σ)
  end.

Definition Logger_Scope (L : Logger) (name : string) (σ : world)
    : option (Logger * world) :=
  match L with
  | ptrLogger p => l ← deref p σ; Some (logger_Scope l name σ)
  | ptrNoop n => Some (NoopLogger_Scope n name σ)
  end.

(** A logging call, and a sequence of them made on one Logger. *)
Inductive call : Type :=
| callInfo (msg : string)
| callEvent (msg : string)
| callDebug (key value : string)
| callError (err : option error) (msg : string).

Definition do_call (L : Logger) (c : call) (σ : world) : option world :=
  match c with
  | callInfo m => Logger_Info L m σ
  | callEvent m => Logger_Event L m σ
  | callDebug k v => Logger_Debug L k v σ
  | callError e m => Logger_Error L e m σ
  end.

Fixpoint run (L : Logger) (cs : list call) (σ : world) : option world :=
  match cs with
  | [] => Some σ
  | c :: cs' => σ' ← do_call L c σ; run L cs' σ'
  end.

(** ** Notions the statements use *)

(** A case-insensitive match against an ASCII keyword, as the specification
    words it: two bytes are the same letter in either case, or the same byte;
    two strings match when they do so byte by byte. *)
Definition same_ignoring_case (a b : ascii) : bool :=
  Ascii.eqb a b
  || (is_upper_byte a && (byte_val b =? byte_val a + 32))
  || (is_upper_byte b && (byte_val a =? byte_val b + 32)).

Fixpoint equal_fold (s t : string) : bool :=
  match s, t with
  | EmptyString, EmptyString => true
  | String a s', String b t' => same_ignoring_case a b && equal_fold s' t'
  | _, _ => false
  end.

(** A byte below [RuneSelf] other than the letters i and k. *)
Definition plain_byte (c : ascii) : bool :=
  (byte_val c <? RuneSelf) && negb (byte_val c =? 105)
  && negb (byte_val c =? 107).

(** A case table that lowers no rune above ASCII to an ASCII character
    other than the letters i and k, and drops none.  Go's table is such a
    table: the only runes above ASCII with an ASCII lower case are U+0130
    and the Kelvin sign U+212A. *)
Definition lowers_to_ascii_only_i_k (tbl : Z -> Z) : Prop :=
  forall r : Z, 128 <= r -> 128 <= tbl r \/ tbl r = 105 \/ tbl r = 107.

(** The entry [{0x0130, 0x0130, d{0, -199, 0}}] of Go's [unicode.CaseRanges]:
    the lower case of U+0130 (capital I with a dot above) is U+0069, the
    letter i.  The runes outside this entry are left alone here. *)
Definition CaseRanges_0130 (r : Z) : Z :=
  if r =? 304 then r - 199 else r.

(** A case table that leaves every rune above ASCII alone, for examples on
    ASCII text. *)
Definition no_case (r : Z) : Z := r.

(** The five bytes C4 B0 6E 66 6F: U+0130 followed by [nfo]. *)
Definition dotted_Info : string :=
  String (byte_of 196) (String (byte_of 176) "nfo").

(** Eight bytes that are not valid UTF-8: 62 61 64 FF 62 79 74 65. *)
Definition bad_bytes : string :=
  String "b" (String "a" (String "d" (String (byte_of 255) "byte"))).

(** The same text with the byte FF replaced by the three bytes EF BF BD of
    U+FFFD. *)
Definition bad_bytes_replaced : string :=
  String "b" (String "a" (String "d"
    (String (byte_of 239) (String (byte_of 191)
       (String (byte_of 189) "byte"))))).

(** The level a call is made at, for the three calls that have one among the
    package's levels. *)
Definition call_level (c : call) : option Level :=
  match c with
  | callInfo _ => Some LevelInfo
  | callEvent _ => Some LevelEvent
  | callDebug _ _ => Some LevelDebug
  | callError _ _ => None
  end.

(** The logger value [New] builds over a list of writers. *)
Definition main_logger (lvl : Level) (ws : list zerolog.Writer) : logger :=
  {| zl := {| zerolog.w := ws; zerolog.level := zlevel lvl;
              zerolog.timestamp := true |};
     scope := "main" |}.

(** A start state for examples: nothing allocated, nothing written, a clock
    counting from 1000, zerolog's default globals after [init]. *)
Definition start (o : OS) : world :=
  {| heap := []; trace := []; ticks := 0%nat;
     clock := fun n => 1000 + Z.of_nat n;
     os := o;
     glob := init {| LevelFieldMarshalFunc := zerolog.Level_String |} |}.

Definition os_ok : OS :=
  {| MkdirAll_result := fun _ => None; OpenFile_result := fun _ => None |}.

Definition os_no_mkdir : OS :=
  {| MkdirAll_result := fun _ => Some (plainError "permission denied");
     OpenFile_result := fun _ => None |}.

Definition os_no_open : OS :=
  {| MkdirAll_result := fun _ => None;
     OpenFile_result := fun _ => Some (plainError "is a directory") |}.

(** A stand-in for [filepath.Dir] in examples: everything up to the last
    slash. *)
Fixpoint dir_of (s : string) : string :=
  match s with
  | EmptyString => EmptyString
  | String c r =>
      if string_existsb (Ascii.eqb "/") r then String c (dir_of r)
      else EmptyString
  end.

(** The trace after [New] on a start state and a sequence of calls on the
    Logger it returns, and the message each write carries. *)
Definition after_calls (lvl : Level) (opts : list Option) (o : OS)
    (cs : list call) : option (list effect) :=
  let '(σ, (L, _)) := New no_case dir_of lvl opts (start o) in
  match L with
  | Some L => option_map trace (run L cs σ)
  | None => None
  end.

Definition messages (es : list effect) : list (io_Writer * option string) :=
  flat_map
    (fun e =>
       match e with
       | Write d (zerolog.text l) => [(d, zerolog.l_message l)]
       | Write d (zerolog.json r) => [(d, zerolog.r_message r)]
       | _ => []
       end) es.

(** The Logger reached from [L] by one [Scope] call per name, in order. *)
Fixpoint scope_chain (L : Logger) (names : list string) (σ : world)
    : option (Logger * world) :=
  match names with
  | [] => Some (L, σ)
  | n :: rest => '(L', σ') ← Logger_Scope L n σ; scope_chain L' rest σ'
  end.

Definition is_Write (e : effect) : bool :=
  match e with
  | Write _ _ => true
  | _ => false
  end.

(** The destination of each write of a list of effects, in order. *)
Definition destinations (es : list effect) : list io_Writer :=
  flat_map
    (fun e =>
       match e with
       | Write d _ => [d]
       | _ => []
       end) es.

(** Where a writer of the backend sends what it is given. *)
Definition writer_dst (wr : zerolog.Writer) : io_Writer :=
  match wr with
  | zerolog.console c => zerolog.Out c
  | zerolog.raw o => o
  end.

(** [σ'] comes from [σ] by writes to destinations in [D] and clock reads
    only: same heap, same operating system, same clock and globals, the
    trace extended by writes. *)
Definition extends (D : io_Writer -> Prop) (σ σ' : world) : Prop :=
  heap σ' = heap σ /\ os σ' = os σ /\ clock σ' = clock σ
  /\ glob σ' = glob σ /\ (ticks σ <= ticks σ')%nat
  /\ exists es : list effect,
       trace σ' = (trace σ ++ es)%list
       /\ forallb is_Write es = true
       /\ forall d : io_Writer, In d (destinations es) -> D d.

(** The writers [New] assembles: the console writer over the configured
    writer, then the file when a path is configured. *)
Definition New_writers (up : Z -> Z) (cfg : options) : list zerolog.Writer :=
  zerolog.console (newConsoleWriter up (writer cfg))
  :: (if String.eqb (filePath cfg) "" then []
      else [zerolog.raw (File (filePath cfg))]).

(** The calls [New] makes to the operating system when both succeed. *)
Definition New_fs_effects (dir : string -> string) (cfg : options)
    : list effect :=
  if String.eqb (filePath cfg) "" then []
  else [MkdirAll (dir (filePath cfg)) 488;
        OpenFile (filePath cfg) [O_APPEND; O_CREATE; O_WRONLY] 420].

(** The backend level each method asks an event at. *)
Definition call_backend_level (c : call) : zerolog.Level :=
  match c with
  | callInfo _ => zerolog.InfoLevel
  | callEvent _ => eventLevel
  | callDebug _ _ => zerolog.DebugLevel
  | callError _ _ => zerolog.ErrorLevel
  end.

(** The level code the console shows for each call once [init] has run. *)
Definition call_code (c : call) : string :=
  match c with
  | callInfo _ => colorGreen ++ "INF" ++ colorReset
  | callEvent _ => colorWhite ++ "EVT" ++ colorReset
  | callDebug _ _ => colorCyan ++ "DBG" ++ colorReset
  | callError _ _ => colorRed ++ "ERR" ++ colorReset
  end.

(** * Bytes and case *)

Lemma byte_val_range (c : ascii) : 0 <= byte_val c < 256.
Proof.
  unfold byte_val. pose proof (N_ascii_bounded c). lia.
Qed.

Lemma byte_of_val (c : ascii) : byte_of (byte_val c) = c.
Proof.
  unfold byte_of, byte_val. rewrite N2Z.id. apply ascii_N_embedding.
Qed.

Lemma byte_val_of (z : Z) : 0 <= z < 256 -> byte_val (byte_of z) = z.
Proof.
  intros Hz. unfold byte_of, byte_val.
  rewrite N_ascii_embedding by lia. lia.
Qed.

Lemma byte_val_inj (a b : ascii) : byte_val a = byte_val b -> a = b.
Proof.
  intros H. rewrite <- (byte_of_val a), <- (byte_of_val b). now rewrite H.
Qed.

Lemma is_upper_byte_spec (c : ascii) :
  is_upper_byte c = true <-> 65 <= byte_val c <= 90.
Proof. unfold is_upper_byte. rewrite andb_true_iff. lia. Qed.

Lemma lower_byte_fold (a b : ascii) :
  is_upper_byte b = false ->
  lower_byte a = b <-> same_ignoring_case a b = true.
Proof.
  intros Hb. unfold lower_byte, same_ignoring_case.
  rewrite Hb, andb_false_l, orb_false_r.
  pose proof (byte_val_range a) as Ha.
  destruct (is_upper_byte a) eqn:Hu.
  - pose proof (proj1 (is_upper_byte_spec a) Hu) as Hr. rewrite andb_true_l.
    assert (Ascii.eqb a b = false) as ->.
    { apply Ascii.eqb_neq. intros ->. congruence. }
    rewrite orb_false_l, Z.eqb_eq. split.
    + intros <-. rewrite byte_val_of; lia.
    + intros E. apply byte_val_inj. rewrite byte_val_of; lia.
  - rewrite andb_false_l, orb_false_r. symmetry. apply Ascii.eqb_eq.
Qed.

Lemma lower_map_fold (s : string) : forall t : string,
  string_existsb is_upper_byte t = false ->
  string_map lower_byte s = t <-> equal_fold s t = true.
Proof.
  induction s as [|a s IH]; intros [|b t] Ht; simpl in *;
    try (split; intros; congruence); try tauto.
  apply orb_false_iff in Ht as [Hb Ht].
  rewrite andb_true_iff, <- (IH t Ht), <- (lower_byte_fold a b Hb).
  split; [intros [= -> ->]; auto | intros [-> ->]; auto].
Qed.

Lemma lower_map_id (s : string) :
  string_existsb is_upper_byte s = false -> string_map lower_byte s = s.
Proof.
  induction s as [|a s IH]; simpl; [reflexivity|].
  intros [Ha Hs]%orb_false_iff. unfold lower_byte at 1.
  rewrite Ha, IH; auto.
Qed.

Lemma ToLower_ascii (tbl : Z -> Z) (s : string) :
  isASCII s = true -> strings_ToLower tbl s = string_map lower_byte s.
Proof.
  intros H. unfold strings_ToLower. rewrite H.
  destruct (string_existsb is_upper_byte s) eqn:E; simpl; [reflexivity|].
  symmetry. now apply lower_map_id.
Qed.

Lemma equal_fold_ascii (s : string) : forall t : string,
  equal_fold s t = true -> isASCII t = true -> isASCII s = true.
Proof.
  unfold isASCII.
  induction s as [|a s IH]; intros [|b t]; simpl; try congruence.
  intros [Hab Hst]%andb_true_iff [Hb Ht]%andb_true_iff.
  rewrite (IH t Hst Ht), andb_true_r.
  apply Z.ltb_lt in Hb. apply Z.ltb_lt. unfold RuneSelf in *.
  unfold same_ignoring_case in Hab.
  apply orb_true_iff in Hab as [Hab|Hab];
    [apply orb_true_iff in Hab as [Hab|Hab]|].
  - apply Ascii.eqb_eq in Hab. now subst.
  - apply andb_true_iff in Hab as [Hu _].
    apply is_upper_byte_spec in Hu. lia.
  - apply andb_true_iff in Hab as [Hu E].
    apply is_upper_byte_spec in Hu. apply Z.eqb_eq in E. lia.
Qed.

(** A keyword written in any mix of cases lowers to the keyword. *)
Lemma ToLower_fold (tbl : Z -> Z) (s t : string) :
  isASCII t = true -> string_existsb is_upper_byte t = false ->
  equal_fold s t = true -> strings_ToLower tbl s = t.
Proof.
  intros Ha Hu Hf.
  rewrite ToLower_ascii by (eapply equal_fold_ascii; eauto).
  now apply lower_map_fold.
Qed.

Lemma ToLower_unfold (tbl : Z -> Z) (s t : string) :
  isASCII s = true -> string_existsb is_upper_byte t = false ->
  strings_ToLower tbl s = t -> equal_fold s t = true.
Proof.
  intros Ha Hu E. rewrite ToLower_ascii in E by assumption.
  now apply lower_map_fold.
Qed.

(** * Runes above ASCII *)

Lemma lor_ge_r (x y : Z) : 0 <= x -> y <= Z.lor x y.
Proof.
  intros Hx. pose proof (Z.sub_lor_l_same_r x y) as H.
  assert (0 <= Z.land x (Z.lnot y)) by (apply Z.land_nonneg; now left).
  lia.
Qed.

Lemma lor_ge_l (x y : Z) : 0 <= y -> x <= Z.lor x y.
Proof. intros Hy. rewrite Z.lor_comm. now apply lor_ge_r. Qed.

(** A check made on every point of an interval holds on the interval. *)
Lemma range_forallb (P : Z -> bool) (lo : Z) (n : nat) :
  forallb P (map (fun i => lo + Z.of_nat i) (seq 0 n)) = true ->
  forall x : Z, lo <= x < lo + Z.of_nat n -> P x = true.
Proof.
  intros H x Hx. rewrite forallb_forall in H. apply H.
  apply in_map_iff. exists (Z.to_nat (x - lo)). split; [lia|].
  apply in_seq. lia.
Qed.

Lemma lead_spec (b0 : Z) (sz : nat) (lo hi : Z) :
  utf8.lead b0 = Some (sz, lo, hi) ->
  hi <= 191 /\
  ((sz = 2%nat /\ 194 <= b0 <= 223)
  \/ (sz = 3%nat /\ b0 = 224 /\ lo = 160)
  \/ (sz = 3%nat /\ 225 <= b0 <= 239)
  \/ (sz = 4%nat /\ b0 = 240 /\ lo = 144)
  \/ (sz = 4%nat /\ 241 <= b0 <= 244)).
Proof.
  unfold utf8.lead.
  repeat match goal with
         | |- context [if ?c then _ else _] => destruct c eqn:?
         end;
    intros [= <- <- <-]; lia.
Qed.

Lemma land_mask_nonneg (b m : Z) : 0 <= m -> 0 <= Z.land b m.
Proof. intros Hm. apply Z.land_nonneg. now right. Qed.

Lemma shiftl_mask_nonneg (b m n : Z) : 0 <= m -> 0 <= Z.shiftl (Z.land b m) n.
Proof. intros Hm. apply Z.shiftl_nonneg. now apply land_mask_nonneg. Qed.

Lemma DecodeRune_high (c : ascii) (rest : string) :
  128 <= byte_val c -> 128 <= fst (utf8.DecodeRune c rest).
Proof.
  intros Hc. unfold utf8.DecodeRune. cbv zeta.
  assert ((byte_val c <? RuneSelf) = false) as ->
    by (apply Z.ltb_ge; unfold RuneSelf; lia).
  pose proof (byte_val_range c) as Hr.
  assert (128 <= utf8.RuneError) as He by (unfold utf8.RuneError; lia).
  destruct (utf8.lead (byte_val c)) as [[[sz lo] hi]|] eqn:Hlead;
    [|exact He].
  apply lead_spec in Hlead.
  destruct rest as [|c1 r1]; [exact He|].
  destruct (negb (utf8.in_range lo hi (byte_val c1))) eqn:H1; [exact He|].
  apply negb_false_iff in H1. unfold utf8.in_range in H1.
  apply andb_true_iff in H1 as [H1l H1h].
  apply Z.leb_le in H1l, H1h.
  pose proof (byte_val_range c1) as Hr1.
  assert (forall b, 194 <= b <= 223 -> 128 <= Z.shiftl (Z.land b 31) 6) as A2.
  { intros b Hb.
    apply Z.leb_le, (range_forallb
      (fun b => 128 <=? Z.shiftl (Z.land b 31) 6) 194 30); [reflexivity|lia]. }
  assert (forall b, 225 <= b <= 239 -> 128 <= Z.shiftl (Z.land b 15) 12) as A3.
  { intros b Hb.
    apply Z.leb_le, (range_forallb
      (fun b => 128 <=? Z.shiftl (Z.land b 15) 12) 225 15); [reflexivity|lia]. }
  assert (forall b, 241 <= b <= 244 -> 128 <= Z.shiftl (Z.land b 7) 18) as A4.
  { intros b Hb.
    apply Z.leb_le, (range_forallb
      (fun b => 128 <=? Z.shiftl (Z.land b 7) 18) 241 4); [reflexivity|lia]. }
  assert (forall b, 160 <= b <= 191 -> 128 <= Z.shiftl (Z.land b 63) 6) as B3.
  { intros b Hb.
    apply Z.leb_le, (range_forallb
      (fun b => 128 <=? Z.shiftl (Z.land b 63) 6) 160 32); [reflexivity|lia]. }
  assert (forall b, 144 <= b <= 191 -> 128 <= Z.shiftl (Z.land b 63) 12) as B4.
  { intros b Hb.
    apply Z.leb_le, (range_forallb
      (fun b => 128 <=? Z.shiftl (Z.land b 63) 12) 144 48); [reflexivity|lia]. }
  destruct Hlead
    as [Hhi [[-> Hb]|[(-> & Hb & ->)|[[-> Hb]|[(-> & Hb & ->)|[-> Hb]]]]]].
  - simpl. etransitivity; [apply (A2 _ Hb)|].
    apply lor_ge_l. apply land_mask_nonneg. lia.
  - destruct r1 as [|c2 r2]; [exact He|].
    destruct (negb (utf8.cont (byte_val c2))); [exact He|]. simpl.
    etransitivity; [apply (B3 (byte_val c1)); lia|].
    etransitivity; [|apply lor_ge_r; apply shiftl_mask_nonneg; lia].
    apply lor_ge_l. apply land_mask_nonneg. lia.
  - destruct r1 as [|c2 r2]; [exact He|].
    destruct (negb (utf8.cont (byte_val c2))); [exact He|]. simpl.
    etransitivity; [apply (A3 _ Hb)|].
    apply lor_ge_l. apply Z.lor_nonneg. split;
      [apply shiftl_mask_nonneg | apply land_mask_nonneg]; lia.
  - destruct r1 as [|c2 r2]; [exact He|].
    destruct (negb (utf8.cont (byte_val c2))); [exact He|].
    destruct r2 as [|c3 r3]; [exact He|].
    destruct (negb (utf8.cont (byte_val c3))); [exact He|]. simpl.
    etransitivity; [apply (B4 (byte_val c1)); lia|].
    etransitivity; [|apply lor_ge_r; apply shiftl_mask_nonneg; lia].
    apply lor_ge_l. apply Z.lor_nonneg. split;
      [apply shiftl_mask_nonneg | apply land_mask_nonneg]; lia.
  - destruct r1 as [|c2 r2]; [exact He|].
    destruct (negb (utf8.cont (byte_val c2))); [exact He|].
    destruct r2 as [|c3 r3]; [exact He|].
    destruct (negb (utf8.cont (byte_val c3))); [exact He|]. simpl.
    etransitivity; [apply (A4 _ Hb)|].
    apply lor_ge_l. repeat (apply Z.lor_nonneg; split);
      try apply shiftl_mask_nonneg; try apply land_mask_nonneg; lia.
Qed.

Lemma runes_high (s : string) : forall fuel : nat,
  (String.length s <= fuel)%nat -> isASCII s = false ->
  exists c : Z, In c (utf8.runes_fuel fuel s) /\ 128 <= c.
Proof.
  unfold isASCII.
  induction s as [|a s IH]; intros fuel Hf Hs; simpl in Hs; [discriminate|].
  destruct fuel as [|f]; simpl in Hf; [lia|]. simpl.
  destruct (utf8.DecodeRune a s) as [r w] eqn:Hd.
  destruct (byte_val a <? RuneSelf) eqn:Ha.
  - unfold utf8.DecodeRune in Hd. cbv zeta in Hd. rewrite Ha in Hd.
    injection Hd as <- <-. simpl in Hs |- *.
    destruct (IH f ltac:(lia) Hs) as (c & Hin & Hc).
    exists c. split; [now right | exact Hc].
  - exists r. split; [now left|].
    apply Z.ltb_ge in Ha. unfold RuneSelf in Ha.
    pose proof (DecodeRune_high a s Ha) as H. now rewrite Hd in H.
Qed.

Lemma byte_high (x lo : Z) (n : nat) (f : Z -> Z) :
  forallb (fun x => 128 <=? byte_val (byte_of (f x)))
    (map (fun i => lo + Z.of_nat i) (seq 0 n)) = true ->
  lo <= x < lo + Z.of_nat n -> 128 <= byte_val (byte_of (f x)).
Proof.
  intros H Hx. apply Z.leb_le.
  now apply (range_forallb (fun x => 128 <=? byte_val (byte_of (f x))) lo n).
Qed.

Lemma EncodeRune_high (r : Z) :
  128 <= r ->
  exists (c : ascii) (t : string),
    utf8.EncodeRune r = String c t /\ 128 <= byte_val c.
Proof.
  intros Hr. unfold utf8.EncodeRune.
  assert ((r <=? 127) = false) as -> by (apply Z.leb_gt; lia).
  rewrite andb_false_r.
  assert ((0 <=? r) = true) as -> by (apply Z.leb_le; lia).
  assert ((r <? 0) = false) as -> by (apply Z.ltb_ge; lia).
  rewrite andb_true_l, orb_false_l.
  destruct (Z.leb_spec r 2047) as [H1|H1].
  { eexists _, _. split; [reflexivity|].
    apply (byte_high (Z.shiftr r 6) 2 30 (Z.lor 192)); [reflexivity|].
    rewrite Z.shiftr_div_pow2 by lia. change (2 ^ 6) with 64.
    split; [apply Z.div_le_lower_bound | apply Z.div_lt_upper_bound]; lia. }
  destruct ((utf8.MaxRune <? r) || ((55296 <=? r) && (r <=? 57343))) eqn:Hm.
  { eexists _, _. split; [reflexivity|]. vm_compute. discriminate. }
  apply orb_false_iff in Hm as [Hm _]. apply Z.ltb_ge in Hm.
  unfold utf8.MaxRune in Hm.
  destruct (Z.leb_spec r 65535) as [H2|H2].
  { eexists _, _. split; [reflexivity|].
    apply (byte_high (Z.shiftr r 12) 0 16 (Z.lor 224)); [reflexivity|].
    rewrite Z.shiftr_div_pow2 by lia. change (2 ^ 12) with 4096.
    split; [apply Z.div_le_lower_bound | apply Z.div_lt_upper_bound]; lia. }
  eexists _, _. split; [reflexivity|].
  apply (byte_high (Z.shiftr r 18) 0 5 (Z.lor 240)); [reflexivity|].
  rewrite Z.shiftr_div_pow2 by lia. change (2 ^ 18) with 262144.
  split; [apply Z.div_le_lower_bound | apply Z.div_lt_upper_bound]; lia.
Qed.

Lemma string_forallb_app (p : ascii -> bool) (a b : string) :
  string_forallb p (a ++ b)%string
  = string_forallb p a && string_forallb p b.
Proof.
  induction a as [|c a IH]; [reflexivity|].
  change (p c && string_forallb p (a ++ b)%string
          = p c && string_forallb p a && string_forallb p b).
  now rewrite IH, andb_assoc.
Qed.

Lemma plain_byte_high (c : ascii) : 128 <= byte_val c -> plain_byte c = false.
Proof.
  intros H. unfold plain_byte, RuneSelf.
  now rewrite (proj2 (Z.ltb_ge _ _) H).
Qed.

(** Under such a table, a string with a rune above ASCII is mapped to
    a string holding a byte above ASCII, an i or a k. *)
Lemma Map_not_plain (tbl : Z -> Z) (rs : list Z) :
  lowers_to_ascii_only_i_k tbl ->
  (exists c : Z, In c rs /\ 128 <= c) ->
  string_forallb plain_byte
    (fold_right
       (fun c acc =>
          let r := unicode_ToLower tbl c in
          if 0 <=? r then (utf8.EncodeRune r ++ acc)%string else acc)
       EmptyString rs) = false.
Proof.
  intros Ht.
  set (f := fun (c : Z) (acc : string) =>
              let r := unicode_ToLower tbl c in
              if 0 <=? r then (utf8.EncodeRune r ++ acc)%string else acc).
  induction rs as [|c0 rs IH]; intros (c & Hin & Hc); [destruct Hin|].
  change (string_forallb plain_byte (f c0 (fold_right f EmptyString rs))
          = false).
  set (acc := fold_right f EmptyString rs) in *.
  unfold f. cbv zeta. destruct Hin as [->|Hin].
  - unfold unicode_ToLower.
    rewrite (proj2 (Z.leb_gt c 127)) by lia.
    destruct (Ht c Hc) as [Hh|[E|E]].
    + rewrite (proj2 (Z.leb_le 0 (tbl c))) by lia.
      destruct (EncodeRune_high _ Hh) as (b & t & -> & Hb).
      rewrite string_forallb_app. simpl.
      now rewrite (plain_byte_high b Hb).
    + rewrite E. reflexivity.
    + rewrite E. reflexivity.
  - specialize (IH (ex_intro _ c (conj Hin Hc))).
    destruct (0 <=? unicode_ToLower tbl c0); [|exact IH].
    rewrite string_forallb_app, IH. apply andb_false_r.
Qed.

Lemma ToLower_not_plain (tbl : Z -> Z) (s : string) :
  lowers_to_ascii_only_i_k tbl -> isASCII s = false ->
  string_forallb plain_byte (strings_ToLower tbl s) = false.
Proof.
  intros Ht Hs. unfold strings_ToLower. rewrite Hs.
  apply Map_not_plain; [exact Ht|].
  apply runes_high; [lia | exact Hs].
Qed.

(** Under such a table, only an ASCII string lowers to a keyword without
    i and k. *)
Lemma ToLower_plain_ascii (tbl : Z -> Z) (s t : string) :
  lowers_to_ascii_only_i_k tbl ->
  string_forallb plain_byte t = true ->
  strings_ToLower tbl s = t -> isASCII s = true.
Proof.
  intros Ht Hp E. destruct (isASCII s) eqn:Hs; [reflexivity|].
  pose proof (ToLower_not_plain tbl s Ht Hs) as H. congruence.
Qed.

(** * ParseLevel *)

Lemma ParseLevel_cases (tbl : Z -> Z) (s : string) :
  (strings_ToLower tbl s = "debug" /\ ParseLevel tbl s = LevelDebug)
  \/ (strings_ToLower tbl s = "info" /\ ParseLevel tbl s = LevelInfo)
  \/ (strings_ToLower tbl s = "event" /\ ParseLevel tbl s = LevelEvent)
  \/ (strings_ToLower tbl s <> "debug" /\ strings_ToLower tbl s <> "info"
      /\ strings_ToLower tbl s <> "event" /\ ParseLevel tbl s = LevelDisabled).
Proof.
  unfold ParseLevel; cbv zeta.
  destruct (String.eqb_spec (strings_ToLower tbl s) "debug") as [E1|N1];
    [left; split; [exact E1 | reflexivity]|].
  destruct (String.eqb_spec (strings_ToLower tbl s) "info") as [E2|N2];
    [right; left; split; [exact E2 | reflexivity]|].
  destruct (String.eqb_spec (strings_ToLower tbl s) "event") as [E3|N3];
    [right; right; left; split; [exact E3 | reflexivity]|].
  right; right; right. auto.
Qed.

(** The level as a function of the lowered string. *)
Lemma ParseLevel_lowering_cases (tbl : Z -> Z) (s : string) :
  (equal_fold s "debug" = true -> ParseLevel tbl s = LevelDebug)
  /\ (equal_fold s "info" = true -> ParseLevel tbl s = LevelInfo)
  /\ (equal_fold s "event" = true -> ParseLevel tbl s = LevelEvent)
  /\ (isASCII s = true ->
      equal_fold s "debug" = false -> equal_fold s "info" = false ->
      equal_fold s "event" = false -> ParseLevel tbl s = LevelDisabled)
  /\ (ParseLevel tbl s = LevelDebug <-> strings_ToLower tbl s = "debug")
  /\ (ParseLevel tbl s = LevelInfo <-> strings_ToLower tbl s = "info")
  /\ (ParseLevel tbl s = LevelEvent <-> strings_ToLower tbl s = "event")
  /\ (ParseLevel tbl s = LevelDisabled <->
      strings_ToLower tbl s <> "debug" /\ strings_ToLower tbl s <> "info"
      /\ strings_ToLower tbl s <> "event")
  /\ ParseLevel tbl "" = LevelDisabled.
Proof.
  pose proof (ToLower_fold tbl s "debug" eq_refl eq_refl) as V1.
  pose proof (ToLower_fold tbl s "info" eq_refl eq_refl) as V2.
  pose proof (ToLower_fold tbl s "event" eq_refl eq_refl) as V3.
  pose proof (fun Ha => ToLower_unfold tbl s "debug" Ha eq_refl) as U1.
  pose proof (fun Ha => ToLower_unfold tbl s "info" Ha eq_refl) as U2.
  pose proof (fun Ha => ToLower_unfold tbl s "event" Ha eq_refl) as U3.
  assert (ParseLevel tbl "" = LevelDisabled) as H0 by reflexivity.
  unfold LevelDebug, LevelInfo, LevelEvent, LevelDisabled in *.
  destruct (ParseLevel_cases tbl s)
    as [[E H]|[[E H]|[[E H]|(N1 & N2 & N3 & H)]]];
    unfold LevelDebug, LevelInfo, LevelEvent, LevelDisabled in H;
    rewrite H; try rewrite E in *;
    intuition (try congruence; try discriminate).
Qed.

(** C2, as the code has it: ParseLevel is defined on every string.  Every
    spelling of debug, info or event in any mix of upper and lower case maps
    to LevelDebug, LevelInfo, LevelEvent; every other string made of ASCII
    bytes only, the empty string included, maps to LevelDisabled.  In general
    the level is decided by Go's lower-casing of the string: the result is
    LevelDebug, LevelInfo or LevelEvent exactly when strings.ToLower gives
    debug, info or event, and LevelDisabled otherwise, whatever the Unicode
    case table does to the runes above ASCII.  When the table lowers no rune
    above ASCII to an ASCII character other than i and k (as Go's does),
    LevelDebug and LevelEvent are reached by the mixed-case spellings of
    debug and event only. *)
Theorem ParseLevel_by_lowering (tbl : Z -> Z) (s : string) :
  (equal_fold s "debug" = true -> ParseLevel tbl s = LevelDebug)
  /\ (equal_fold s "info" = true -> ParseLevel tbl s = LevelInfo)
  /\ (equal_fold s "event" = true -> ParseLevel tbl s = LevelEvent)
  /\ (isASCII s = true ->
      equal_fold s "debug" = false -> equal_fold s "info" = false ->
      equal_fold s "event" = false -> ParseLevel tbl s = LevelDisabled)
  /\ (ParseLevel tbl s = LevelDebug <-> strings_ToLower tbl s = "debug")
  /\ (ParseLevel tbl s = LevelInfo <-> strings_ToLower tbl s = "info")
  /\ (ParseLevel tbl s = LevelEvent <-> strings_ToLower tbl s = "event")
  /\ (ParseLevel tbl s = LevelDisabled <->
      strings_ToLower tbl s <> "debug" /\ strings_ToLower tbl s <> "info"
      /\ strings_ToLower tbl s <> "event")
  /\ ParseLevel tbl "" = LevelDisabled
  /\ (lowers_to_ascii_only_i_k tbl ->
      (ParseLevel tbl s = LevelDebug <-> equal_fold s "debug" = true)
      /\ (ParseLevel tbl s = LevelEvent <-> equal_fold s "event" = true)).
Proof.
  destruct (ParseLevel_lowering_cases tbl s)
    as (V1 & V2 & V3 & A & D & I & E & X & H0).
  repeat (split; [assumption|]).
  intros Ht. split; (split; [|assumption]).
  - intros H%D.
    pose proof (ToLower_plain_ascii tbl s "debug" Ht eq_refl H) as Ha.
    exact (ToLower_unfold tbl s "debug" Ha eq_refl H).
  - intros H%E.
    pose proof (ToLower_plain_ascii tbl s "event" Ht eq_refl H) as Ha.
    exact (ToLower_unfold tbl s "event" Ha eq_refl H).
Qed.

(** C2, the input on which the claim as worded fails: the five bytes of
    U+0130 followed by nfo are not a spelling of debug, info or event in any
    mix of cases, yet Go lowers U+0130 to the letter i, so ParseLevel answers
    LevelInfo and not LevelDisabled. *)
Lemma ParseLevel_dotted_capital_I :
  equal_fold dotted_Info "debug" = false
  /\ equal_fold dotted_Info "info" = false
  /\ equal_fold dotted_Info "event" = false
  /\ strings_ToLower CaseRanges_0130 dotted_Info = "info"
  /\ ParseLevel CaseRanges_0130 dotted_Info = LevelInfo
  /\ ParseLevel CaseRanges_0130 dotted_Info <> LevelDisabled.
Proof.
  repeat split; try reflexivity. vm_compute. discriminate.
Qed.

Lemma CaseRanges_0130_ok : lowers_to_ascii_only_i_k CaseRanges_0130.
Proof.
  intros r Hr. unfold CaseRanges_0130.
  destruct (Z.eqb_spec r 304); lia.
Qed.

Lemma ParseLevel_by_lowering_witness :
  ParseLevel CaseRanges_0130 "DeBuG" = LevelDebug
  /\ ParseLevel CaseRanges_0130 "Warn" = LevelDisabled
  /\ (ParseLevel CaseRanges_0130 dotted_Info = LevelDebug
      <-> equal_fold dotted_Info "debug" = true).
Proof.
  destruct (ParseLevel_by_lowering CaseRanges_0130 "DeBuG") as (V1 & _).
  destruct (ParseLevel_by_lowering CaseRanges_0130 "Warn")
    as (_ & _ & _ & A & _).
  destruct (ParseLevel_by_lowering CaseRanges_0130 dotted_Info)
    as (_ & _ & _ & _ & _ & _ & _ & _ & _ & T).
  split; [exact (V1 eq_refl)|].
  split; [exact (A eq_refl eq_refl eq_refl eq_refl)|].
  exact (proj1 (T CaseRanges_0130_ok)).
Defined.

(** * The console level formatter *)

Lemma upper_map_id (s : string) :
  string_existsb is_lower_byte s = false -> string_map upper_byte s = s.
Proof.
  induction s as [|a s IH]; simpl; [reflexivity|].
  intros [Ha Hs]%orb_false_iff. unfold upper_byte at 1.
  rewrite Ha, IH; auto.
Qed.

Lemma ToUpper_ascii (tbl : Z -> Z) (s : string) :
  isASCII s = true -> strings_ToUpper tbl s = string_map upper_byte s.
Proof.
  intros H. unfold strings_ToUpper. rewrite H.
  destruct (string_existsb is_lower_byte s) eqn:E; simpl; [reflexivity|].
  symmetry. now apply upper_map_id.
Qed.

(** C8: the level formatter maps event, info, debug, error and warn to the
    white EVT, green INF, cyan DBG, red ERR and yellow WRN codes, each
    followed by the reset sequence; any other string to its upper-cased form
    with no colour added (byte by byte for an ASCII string); any value that
    is not a string to the three question marks. *)
Theorem formatLevel_mapping (tbl : Z -> Z) :
  formatLevel tbl (anyString "event") = colorWhite ++ "EVT" ++ colorReset
  /\ formatLevel tbl (anyString "info") = colorGreen ++ "INF" ++ colorReset
  /\ formatLevel tbl (anyString "debug") = colorCyan ++ "DBG" ++ colorReset
  /\ formatLevel tbl (anyString "error") = colorRed ++ "ERR" ++ colorReset
  /\ formatLevel tbl (anyString "warn") = colorYellow ++ "WRN" ++ colorReset
  /\ (forall s : string,
        s <> "event" -> s <> "info" -> s <> "debug" -> s <> "error" ->
        s <> "warn" ->
        formatLevel tbl (anyString s) = strings_ToUpper tbl s
        /\ (isASCII s = true ->
            formatLevel tbl (anyString s) = string_map upper_byte s))
  /\ (forall i : any,
        (forall s : string, i <> anyString s) -> formatLevel tbl i = "???").
Proof.
  do 5 (split; [reflexivity|]). split.
  - intros s N1 N2 N3 N4 N5.
    assert (formatLevel tbl (anyString s) = strings_ToUpper tbl s) as E.
    { unfold formatLevel.
      repeat (rewrite (proj2 (String.eqb_neq _ _)) by assumption).
      reflexivity. }
    split; [exact E|]. intros Ha. rewrite E. now apply ToUpper_ascii.
  - intros i Hi. destruct i as [s| | |]; try reflexivity.
    now destruct (Hi s).
Qed.

Lemma formatLevel_mapping_witness :
  formatLevel no_case (anyString "fatal") = "FATAL"
  /\ formatLevel no_case (anyNumber 3) = "???".
Proof.
  split.
  - assert ("fatal" <> "event" /\ "fatal" <> "info" /\ "fatal" <> "debug"
            /\ "fatal" <> "error" /\ "fatal" <> "warn")
      as (N1 & N2 & N3 & N4 & N5) by (repeat split; discriminate).
    exact (proj2 (proj1 (proj2 (proj2 (proj2 (proj2 (proj2
             (formatLevel_mapping no_case))))))
             "fatal" N1 N2 N3 N4 N5) eq_refl).
  - apply (formatLevel_mapping no_case). discriminate.
Defined.

(** * The Event severity in the backend *)

(** C4: the value of the Event severity is the backend's Warn value itself,
    not a value strictly between Info and Warn; once [init] has run, a record
    at the backend's Warn level is tagged event. *)
Theorem eventLevel_is_WarnLevel (g : globals) :
  eventLevel = zerolog.WarnLevel
  /\ zerolog.InfoLevel < eventLevel
  /\ ~ (zerolog.InfoLevel < eventLevel < zerolog.WarnLevel)
  /\ LevelFieldMarshalFunc (init g) zerolog.WarnLevel = "event".
Proof.
  unfold eventLevel, zerolog.WarnLevel, zerolog.InfoLevel.
  repeat split; try reflexivity; lia.
Qed.

(** * The encoder and valid UTF-8 *)

Lemma string_app_cons (c : ascii) (s t : string) :
  (String c s ++ t)%string = String c (s ++ t)%string.
Proof. reflexivity. Qed.

Lemma DecodeRune_app (c : ascii) (rest b : string) (r : Z) (w : nat) :
  utf8.DecodeRune c rest = (r, w) ->
  (r =? utf8.RuneError) && Nat.eqb w 1 = false ->
  (Nat.pred w <= String.length rest)%nat
  /\ utf8.DecodeRune c (rest ++ b) = (r, w).
Proof.
  unfold utf8.DecodeRune. cbv zeta.
  destruct (byte_val c <? RuneSelf);
    [intros [= <- <-] _; split; [simpl; lia | reflexivity]|].
  destruct (utf8.lead (byte_val c)) as [[[sz lo] hi]|];
    [|intros [= <- <-] H; vm_compute in H; discriminate].
  destruct rest as [|c1 r1];
    [intros [= <- <-] H; vm_compute in H; discriminate|].
  rewrite string_app_cons.
  destruct (negb (utf8.in_range lo hi (byte_val c1)));
    [intros [= <- <-] H; vm_compute in H; discriminate|].
  destruct sz as [|[|[|[|sz]]]];
    try (intros [= <- <-] _; split; [simpl; lia | reflexivity]);
    (destruct r1 as [|c2 r2];
     [intros [= <- <-] H; vm_compute in H; discriminate|];
     rewrite string_app_cons;
     destruct (negb (utf8.cont (byte_val c2)));
     [intros [= <- <-] H; vm_compute in H; discriminate|];
     first
       [ intros [= <- <-] _; split; [simpl; lia | reflexivity]
       | destruct r2 as [|c3 r3];
         [intros [= <- <-] H; vm_compute in H; discriminate|];
         rewrite string_app_cons;
         destruct (negb (utf8.cont (byte_val c3)));
         [intros [= <- <-] H; vm_compute in H; discriminate|];
         intros [= <- <-] _; split; [simpl; lia | reflexivity] ]).
Qed.

Lemma valid_app (a : string) : forall (skip : nat) (b : string),
  (skip <= String.length a)%nat ->
  utf8.valid_from skip a = true -> utf8.ValidString b = true ->
  utf8.valid_from skip (a ++ b) = true.
Proof.
  induction a as [|c rest IH]; intros skip b Hs Ha Hb.
  - simpl in Hs. assert (skip = 0%nat) as -> by lia. exact Hb.
  - rewrite string_app_cons. simpl in Hs, Ha |- *.
    destruct skip as [|k]; [|apply IH; [lia | exact Ha | exact Hb]].
    destruct (utf8.DecodeRune c rest) as [r w] eqn:Hd.
    apply andb_true_iff in Ha as [Hok Hv]. apply negb_true_iff in Hok.
    destruct (DecodeRune_app c rest b r w Hd Hok) as [Hl ->].
    rewrite Hok. simpl. now apply IH.
Qed.

Lemma encoded_valid (s : string) : forall skip : nat,
  utf8.valid_from skip s = true -> zerolog.encoded_from skip s = s.
Proof.
  induction s as [|c rest IH]; intros skip H; [reflexivity|].
  simpl in H |- *. destruct skip as [|k]; [|now rewrite IH].
  destruct (utf8.DecodeRune c rest) as [r w].
  apply andb_true_iff in H as [Hok Hv]. apply negb_true_iff in Hok.
  rewrite Hok. now rewrite IH.
Qed.

(** Valid UTF-8 goes through the encoder unchanged. *)
Lemma json_text_valid (s : string) :
  utf8.ValidString s = true -> zerolog.json_text s = s.
Proof. apply encoded_valid. Qed.

Lemma ValidString_app (a b : string) :
  utf8.ValidString a = true -> utf8.ValidString b = true ->
  utf8.ValidString (a ++ b) = true.
Proof. intros Ha Hb. apply valid_app; [lia | exact Ha | exact Hb]. Qed.

(** * Rendering of the four operations *)

Lemma string_app_nil_r (s : string) : (s ++ "")%string = s.
Proof.
  induction s as [|c s IH]; [reflexivity|].
  change (String c (s ++ "")%string = String c s). now rewrite IH.
Qed.

Lemma Sprintf_Info (s m : string) :
  Sprintf "[%s] %s" [s; m] = ("[" ++ s ++ "] " ++ m)%string.
Proof. unfold Sprintf. simpl. rewrite string_app_nil_r. reflexivity. Qed.

Lemma Sprintf_Event (s m : string) :
  Sprintf "-%s (%s)" [m; s] = ("-" ++ m ++ " (" ++ s ++ ")")%string.
Proof. unfold Sprintf. simpl. reflexivity. Qed.

Lemma Sprintf_Debug (s k v : string) :
  Sprintf " %s: %s (%s)" [k; v; s]
  = (" " ++ k ++ ": " ++ v ++ " (" ++ s ++ ")")%string.
Proof. unfold Sprintf. simpl. reflexivity. Qed.

Lemma trace_Msg (l : zerolog.Logger) (ev : zerolog.Event) (msg : string)
    (σ : world) :
  zerolog.ev_level ev <> zerolog.Disabled ->
  trace (zerolog_Msg l (Some ev) msg σ)
  = (trace σ ++ writes (record_of σ l ev msg) l)%list.
Proof.
  intros Hl. unfold zerolog_Msg.
  apply Z.eqb_neq in Hl. rewrite Hl.
  destruct (zerolog.timestamp l); reflexivity.
Qed.

Ltac valid_text :=
  repeat (apply ValidString_app; [first [assumption | reflexivity]|]);
  first [assumption | reflexivity].

(** C3, as the code has it: on every logger value, whatever its scope label,
    Info hands the backend the label in square brackets, a space and the
    text; Event a dash, the text and the label in parentheses; Debug a
    space, the key, a colon, the value and the label in parentheses; Error
    the same text as Info, the error's text going into a field of its own,
    named error.  Each writer receives these texts as the backend's encoder
    writes them: exactly as they are when label and arguments are valid
    UTF-8, and with U+FFFD in place of every byte that starts no valid
    sequence otherwise.  (Nothing is written when the level check rejects
    the call.) *)
Theorem calls_render (l : logger) (σ : world) (m k v : string) (e : error) :
  let enc := zerolog.json_text in
  let entry lvl fields msg :=
    {| zerolog.r_level := Some (enc (LevelFieldMarshalFunc (glob σ) lvl));
       zerolog.r_fields := fields;
       zerolog.r_time :=
         if zerolog.timestamp (zl l) then Some (clock σ (ticks σ)) else None;
       zerolog.r_message := Some (enc msg) |} in
  let sent lvl fields msg :=
    if zerolog.should (zl l) lvl then writes (entry lvl fields msg) (zl l)
    else [] in
  trace (logger_Info l m σ)
  = (trace σ
     ++ sent zerolog.InfoLevel [] ("[" ++ scope l ++ "] " ++ m)%string)%list
  /\ trace (logger_Event l m σ)
     = (trace σ
        ++ sent eventLevel [] ("-" ++ m ++ " (" ++ scope l ++ ")")%string)%list
  /\ trace (logger_Debug l k v σ)
     = (trace σ
        ++ sent zerolog.DebugLevel []
             (" " ++ k ++ ": " ++ v ++ " (" ++ scope l ++ ")")%string)%list
  /\ trace (logger_Error l (Some e) m σ)
     = (trace σ
        ++ sent zerolog.ErrorLevel [("error", enc (Error e))]
             ("[" ++ scope l ++ "] " ++ m)%string)%list
  /\ (utf8.ValidString (scope l) = true -> utf8.ValidString m = true ->
      enc ("[" ++ scope l ++ "] " ++ m)%string
      = ("[" ++ scope l ++ "] " ++ m)%string
      /\ enc ("-" ++ m ++ " (" ++ scope l ++ ")")%string
         = ("-" ++ m ++ " (" ++ scope l ++ ")")%string)
  /\ (utf8.ValidString (scope l) = true -> utf8.ValidString k = true ->
      utf8.ValidString v = true ->
      enc (" " ++ k ++ ": " ++ v ++ " (" ++ scope l ++ ")")%string
      = (" " ++ k ++ ": " ++ v ++ " (" ++ scope l ++ ")")%string)
  /\ (utf8.ValidString (Error e) = true -> enc (Error e) = Error e).
Proof.
  cbv zeta.
  unfold logger_Info, logger_Event, logger_Debug, logger_Error.
  unfold zerolog.Info, zerolog.WithLevel, zerolog.Debug, zerolog.Error,
    zerolog.Warn. simpl (_ =? _).  cbv iota.
  unfold zerolog.newEvent, eventLevel, zerolog.WarnLevel.
  split; [|split; [|split; [|split; [|split; [|split]]]]].
  - destruct (zerolog.should (zl l) zerolog.InfoLevel);
      [|simpl; now rewrite app_nil_r].
    unfold zerolog_Msgf. rewrite trace_Msg by discriminate.
    rewrite Sprintf_Info. reflexivity.
  - destruct (zerolog.should (zl l) 2); [|simpl; now rewrite app_nil_r].
    unfold zerolog_Msgf. rewrite trace_Msg by discriminate.
    rewrite Sprintf_Event. reflexivity.
  - destruct (zerolog.should (zl l) zerolog.DebugLevel);
      [|simpl; now rewrite app_nil_r].
    unfold zerolog_Msgf. rewrite trace_Msg by discriminate.
    rewrite Sprintf_Debug. reflexivity.
  - destruct (zerolog.should (zl l) zerolog.ErrorLevel);
      [|simpl; now rewrite app_nil_r].
    unfold zerolog_Msgf, zerolog.Event_Err. rewrite trace_Msg by discriminate.
    rewrite Sprintf_Info. reflexivity.
  - intros Hs Hm. split; apply json_text_valid; valid_text.
  - intros Hs Hk Hv. apply json_text_valid; valid_text.
  - apply json_text_valid.
Qed.

(** C3, the input on which the claim as worded fails: Info of the eight
    bytes 62 61 64 FF 62 79 74 65 through a main logger on standard output
    writes a line whose message has EF BF BD where the argument has FF, so
    it is not the bracketed label, a space and the argument. *)
Lemma calls_render_invalid_utf8 :
  messages
    (trace
       (logger_Info (main_logger LevelInfo (New_writers no_case (configure [])))
          bad_bytes (start os_ok)))
  = [(Stdout, Some ("[main] " ++ bad_bytes_replaced)%string)]
  /\ ("[main] " ++ bad_bytes_replaced)%string
     <> ("[main] " ++ bad_bytes)%string
  /\ utf8.ValidString bad_bytes = false.
Proof.
  split; [reflexivity|]. split; [vm_compute; discriminate | reflexivity].
Qed.

Lemma calls_render_witness :
  zerolog.json_text "[db] query executed" = "[db] query executed"
  /\ zerolog.json_text " key: value (db)" = " key: value (db)".
Proof.
  destruct (calls_render
              {| zl := zl (main_logger LevelInfo []); scope := "db" |}
              (start os_ok) "query executed" "key" "value"
              (plainError "boom"))
    as (_ & _ & _ & _ & A & B & _).
  split.
  - exact (proj1 (A eq_refl eq_refl)).
  - exact (B eq_refl eq_refl eq_refl).
Defined.

(** * Heap and trace bookkeeping *)

Lemma deref_alloc_new (l : logger) (σ : world) :
  deref (length (heap σ)) (snd (alloc (objLogger l) σ)) = Some l.
Proof.
  unfold deref, alloc; simpl.
  rewrite lookup_app_r by lia. now rewrite Nat.sub_diag.
Qed.

Lemma lookup_alloc_old (o : object) (σ : world) (q : nat) :
  (q < length (heap σ))%nat ->
  heap (snd (alloc o σ)) !! q = heap σ !! q.
Proof. intros Hq. unfold alloc; simpl. now rewrite lookup_app_l. Qed.

Lemma deref_alloc_old (o : object) (σ : world) (p : nat) (l : logger) :
  deref p σ = Some l -> deref p (snd (alloc o σ)) = Some l.
Proof.
  unfold deref. intros H.
  destruct (heap σ !! p) as [x|] eqn:E; [|discriminate].
  rewrite lookup_alloc_old by (eapply lookup_lt_Some; eauto).
  now rewrite E.
Qed.

Lemma deref_live (p : nat) (σ : world) (l : logger) :
  deref p σ = Some l -> (p < length (heap σ))%nat.
Proof.
  unfold deref. intros H.
  destruct (heap σ !! p) as [x|] eqn:E; [|discriminate].
  eapply lookup_lt_Some; eauto.
Qed.

Lemma heap_Msg (z : zerolog.Logger) (e : option zerolog.Event) (msg : string)
    (σ : world) :
  heap (zerolog_Msg z e msg σ) = heap σ.
Proof.
  unfold zerolog_Msg. destruct e as [ev|]; [|reflexivity].
  destruct (zerolog.timestamp z), (zerolog.ev_level ev =? zerolog.Disabled);
    reflexivity.
Qed.

Lemma heap_Msgf (z : zerolog.Logger) (e : option zerolog.Event)
    (format : string) (a : list string) (σ : world) :
  heap (zerolog_Msgf z e format a σ) = heap σ.
Proof.
  unfold zerolog_Msgf. destruct e; [apply heap_Msg | reflexivity].
Qed.

(** A logging call allocates nothing and overwrites nothing. *)
Lemma heap_do_call (L : Logger) (c : call) (σ σ' : world) :
  do_call L c σ = Some σ' -> heap σ' = heap σ.
Proof.
  destruct L as [p|n], c; simpl;
    try (intros [= <-]; reflexivity);
    destruct (deref p σ) as [l|]; simpl; try discriminate;
    intros [= <-]; apply heap_Msgf.
Qed.

(** What a call does depends on the struct behind the pointer only. *)
Lemma do_call_deref (p q : nat) (c : call) (σ : world) :
  deref p σ = deref q σ ->
  do_call (ptrLogger p) c σ = do_call (ptrLogger q) c σ.
Proof. intros H. destruct c; simpl; now rewrite H. Qed.

Lemma do_call_live (p : nat) (l : logger) (c : call) (σ : world) :
  deref p σ = Some l -> is_Some (do_call (ptrLogger p) c σ).
Proof. intros H. destruct c; simpl; rewrite H; simpl; eauto. Qed.

Lemma deref_heap (p : nat) (σ σ' : world) :
  heap σ' = heap σ -> deref p σ' = deref p σ.
Proof. unfold deref. now intros ->. Qed.

(** * Scope *)

(** C6: on a live logger, Scope returns a pointer to a newly allocated
    logger that has the receiver's backend value (same writers, same
    threshold) and exactly the given name as its label, whatever the
    receiver's label was; the receiver's struct and every other cell of the
    heap are as before, and nothing is written. *)
Theorem Scope_new_label (σ : world) (p : nat) (l : logger) (name : string) :
  deref p σ = Some l ->
  exists (p' : nat) (σ' : world),
    Logger_Scope (ptrLogger p) name σ = Some (ptrLogger p', σ')
    /\ p' <> p
    /\ heap σ !! p' = None
    /\ deref p' σ' = Some {| zl := zl l; scope := name |}
    /\ deref p σ' = Some l
    /\ (forall q : nat,
          (q < length (heap σ))%nat -> heap σ' !! q = heap σ !! q)
    /\ trace σ' = trace σ.
Proof.
  intros Hl. exists (length (heap σ)).
  exists (snd (alloc (objLogger {| zl := zl l; scope := name |}) σ)).
  pose proof (deref_live _ _ _ Hl) as Hlt.
  repeat split.
  - simpl. rewrite Hl. reflexivity.
  - lia.
  - apply lookup_ge_None. lia.
  - apply deref_alloc_new.
  - now apply deref_alloc_old.
  - intros q Hq. now apply lookup_alloc_old.
Qed.

Lemma Scope_new_label_witness :
  exists (p' : nat) (σ' : world),
    Logger_Scope (ptrLogger 0) "db"
      (fst (New no_case dir_of LevelInfo [] (start os_ok)))
    = Some (ptrLogger p', σ')
    /\ p' <> 0%nat
    /\ option_map scope (deref p' σ') = Some "db"
    /\ option_map scope (deref 0 σ') = Some "main".
Proof.
  destruct (Scope_new_label
              (fst (New no_case dir_of LevelInfo [] (start os_ok)))
              0 _ "db" eq_refl)
    as (p' & σ' & H1 & H2 & _ & H4 & H5 & _).
  exists p', σ'. rewrite H4, H5. repeat split; assumption.
Defined.

(** * The no-op logger *)

Lemma run_Noop (n : nat) (cs : list call) (σ : world) :
  run (ptrNoop n) cs σ = Some σ.
Proof.
  induction cs as [|c cs IH]; simpl; [reflexivity|].
  destruct c; simpl; exact IH.
Qed.

(** C7: each of Info, Event, Debug and Error on a no-op logger returns
    normally and leaves the whole state (heap, trace, clock) as it was, for
    every argument; Scope returns the very pointer it was called on and
    allocates nothing; so a call chained after Scope, and any sequence of
    calls on the logger NewNoop returns, write nothing either. *)
Theorem Noop_silent (n : nat) (σ : world) (m k v name : string)
    (e : option error) (cs : list call) :
  Logger_Info (ptrNoop n) m σ = Some σ
  /\ Logger_Event (ptrNoop n) m σ = Some σ
  /\ Logger_Debug (ptrNoop n) k v σ = Some σ
  /\ Logger_Error (ptrNoop n) e m σ = Some σ
  /\ Logger_Scope (ptrNoop n) name σ = Some (ptrNoop n, σ)
  /\ ('(L', σ') ← Logger_Scope (ptrNoop n) name σ; Logger_Info L' m σ')
     = Some σ
  /\ run (ptrNoop n) cs σ = Some σ
  /\ fst (NewNoop σ) = ptrNoop (length (heap σ))
  /\ trace (snd (NewNoop σ)) = trace σ
  /\ run (fst (NewNoop σ)) cs (snd (NewNoop σ)) = Some (snd (NewNoop σ)).
Proof.
  repeat split; try reflexivity; apply run_Noop.
Qed.

(** * Scope twice *)

Lemma run_deref (p q : nat) (cs : list call) : forall σ : world,
  deref p σ = deref q σ ->
  run (ptrLogger p) cs σ = run (ptrLogger q) cs σ.
Proof.
  induction cs as [|c cs IH]; intros σ H; simpl; [reflexivity|].
  rewrite (do_call_deref p q c σ H).
  destruct (do_call (ptrLogger q) c σ) as [σ'|] eqn:E; simpl; [|reflexivity].
  apply IH. apply heap_do_call in E.
  now rewrite !(deref_heap _ _ _ E).
Qed.

Lemma run_live (p : nat) (l : logger) (cs : list call) : forall σ : world,
  deref p σ = Some l -> is_Some (run (ptrLogger p) cs σ).
Proof.
  induction cs as [|c cs IH]; intros σ H; simpl; [eauto|].
  destruct (do_call_live p l c σ H) as [σ' E]. rewrite E; simpl.
  apply IH. apply heap_do_call in E.
  now rewrite (deref_heap _ _ _ E).
Qed.

Lemma heap_run (L : Logger) (cs : list call) : forall σ σ' : world,
  run L cs σ = Some σ' -> heap σ' = heap σ.
Proof.
  induction cs as [|c cs IH]; intros σ σ'; simpl; [now intros [= <-]|].
  destruct (do_call L c σ) as [σ1|] eqn:E; simpl; [|discriminate].
  intros H. rewrite (IH _ _ H). now apply heap_do_call in E.
Qed.

(** C9: two successive Scope calls with the same name on a live logger give
    two distinct pointers to two structs with equal contents, and any
    sequence of logging calls made through the one ends, from the same
    state, in the same state (same trace of writes) as when made through the
    other; the sequence always runs to its end, and it leaves the other
    struct and the parent's as they were. *)
Theorem Scope_twice (σ : world) (p : nat) (l : logger) (name : string) :
  deref p σ = Some l ->
  exists (p1 p2 : nat) (σ1 σ2 : world),
    Logger_Scope (ptrLogger p) name σ = Some (ptrLogger p1, σ1)
    /\ Logger_Scope (ptrLogger p) name σ1 = Some (ptrLogger p2, σ2)
    /\ p1 <> p2
    /\ deref p1 σ2 = Some {| zl := zl l; scope := name |}
    /\ deref p2 σ2 = Some {| zl := zl l; scope := name |}
    /\ (forall cs : list call,
          run (ptrLogger p1) cs σ2 = run (ptrLogger p2) cs σ2
          /\ is_Some (run (ptrLogger p1) cs σ2))
    /\ (forall (cs : list call) (σ3 : world),
          run (ptrLogger p1) cs σ2 = Some σ3 ->
          deref p2 σ3 = deref p2 σ2 /\ deref p σ3 = Some l).
Proof.
  intros Hl.
  set (o := objLogger {| zl := zl l; scope := name |}).
  set (σ1 := snd (alloc o σ)).
  set (σ2 := snd (alloc o σ1)).
  assert (deref p σ1 = Some l) as Hl1 by now apply deref_alloc_old.
  assert (deref (length (heap σ)) σ2 = Some {| zl := zl l; scope := name |})
    as H1.
  { apply deref_alloc_old. apply deref_alloc_new. }
  assert (deref (length (heap σ1)) σ2 = Some {| zl := zl l; scope := name |})
    as H2 by apply deref_alloc_new.
  exists (length (heap σ)), (length (heap σ1)), σ1, σ2.
  repeat split.
  - simpl. rewrite Hl. reflexivity.
  - simpl. rewrite Hl1. reflexivity.
  - subst σ1. unfold alloc; simpl. rewrite length_app; simpl. lia.
  - exact H1.
  - exact H2.
  - apply run_deref. now rewrite H1, H2.
  - eapply run_live; eauto.
  - apply deref_heap. eapply heap_run; eauto.
  - rewrite (deref_heap p σ2 σ3) by (eapply heap_run; eauto).
    now apply deref_alloc_old.
Qed.

Lemma Scope_twice_witness :
  exists (p1 p2 : nat) (σ1 σ2 : world),
    Logger_Scope (ptrLogger 0) "db"
      (fst (New no_case dir_of LevelInfo [] (start os_ok)))
    = Some (ptrLogger p1, σ1)
    /\ Logger_Scope (ptrLogger 0) "db" σ1 = Some (ptrLogger p2, σ2)
    /\ p1 <> p2
    /\ run (ptrLogger p1) [callInfo "query executed"] σ2
       = run (ptrLogger p2) [callInfo "query executed"] σ2.
Proof.
  destruct (Scope_twice
              (fst (New no_case dir_of LevelInfo [] (start os_ok)))
              0 _ "db" eq_refl)
    as (p1 & p2 & σ1 & σ2 & H1 & H2 & H3 & _ & _ & H6 & _).
  exists p1, p2, σ1, σ2. repeat split; try assumption. apply H6.
Defined.

(** * New *)

Section Constructor.

(** The upper-case table of [unicode] and [filepath.Dir], as in the package. *)
Variable up : Z -> Z.
Variable dir : string -> string.


Lemma build_spec (lvl : Level) (ws : list zerolog.Writer) (σ : world) :
  build lvl ws σ
  = (snd (alloc (objLogger (main_logger lvl ws)) σ),
     (Some (ptrLogger (length (heap σ))), None)).
Proof. reflexivity. Qed.

Lemma New_no_file (lvl : Level) (opts : list Option) (σ : world) :
  filePath (configure opts) = "" ->
  New up dir lvl opts σ
  = build lvl
      [zerolog.console (newConsoleWriter up (writer (configure opts)))] σ.
Proof. intros H. unfold New. cbv zeta. now rewrite H. Qed.

(** Whenever [New] hands out a logger, it is a fresh [main] logger whose
    first writer is the console writer over the configured writer, and the
    only effects so far are those on the file system. *)
Lemma New_ok (lvl : Level) (opts : list Option) (σ σ' : world) (L : Logger) :
  New up dir lvl opts σ = (σ', (Some L, None)) ->
  exists (ws : list zerolog.Writer) (σ0 : world),
    L = ptrLogger (length (heap σ))
    /\ heap σ0 = heap σ
    /\ σ' = snd (alloc
                   (objLogger
                      (main_logger lvl
                         (zerolog.console
                            (newConsoleWriter up (writer (configure opts)))
                          :: ws))) σ0).
Proof.
  unfold New. cbv zeta.
  destruct (String.eqb (filePath (configure opts)) "").
  - rewrite build_spec. intros [= <- <-]. exists [], σ. auto.
  - destruct (MkdirAll_result (os σ) _); [discriminate|].
    destruct (OpenFile_result (os σ) _); [discriminate|].
    rewrite build_spec. intros [= <- <-].
    exists [zerolog.raw (File (filePath (configure opts)))].
    exists (perform
              [OpenFile (filePath (configure opts))
                 [O_APPEND; O_CREATE; O_WRONLY] 420]
              (perform [MkdirAll (dir (filePath (configure opts))) 488] σ)).
    repeat split.
Qed.

Lemma configure_snoc (opts : list Option) (o : Option) :
  configure (opts ++ [o]) = o (configure opts).
Proof. unfold configure. now rewrite fold_left_app. Qed.

Lemma configure_writers (ws : list io_Writer) :
  filePath (configure (map WithWriter ws)) = "".
Proof.
  unfold configure.
  assert (forall cfg, filePath cfg = "" ->
            filePath (fold_left (fun c (o : Option) => o c)
                        (map WithWriter ws) cfg) = "") as H.
  { induction ws as [|x ws IH]; intros cfg Hc; simpl; [exact Hc|].
    apply IH. exact Hc. }
  now apply H.
Qed.

Lemma Errorf_mkdir (e : error) :
  Error (Errorf "logger: create log directory: %w" e)
  = ("logger: create log directory: " ++ Error e)%string.
Proof. unfold Errorf. simpl. now rewrite string_app_nil_r. Qed.

Lemma Errorf_open (e : error) :
  Error (Errorf "logger: open log file: %w" e)
  = ("logger: open log file: " ++ Error e)%string.
Proof. unfold Errorf. simpl. now rewrite string_app_nil_r. Qed.

(** C10: with the single option WithFile of the empty string, New does
    exactly what it does with no option at all: nil error, a logger at a
    fresh pointer, no directory created and no file opened, and the console
    writer over standard output as the only writer.  More generally an empty
    WithFile as the last option always gives a nil error and touches no
    file. *)
Theorem New_WithFile_empty (lvl : Level) (σ : world) :
  New up dir lvl [WithFile ""] σ = New up dir lvl [] σ
  /\ snd (snd (New up dir lvl [WithFile ""] σ)) = None
  /\ fst (snd (New up dir lvl [WithFile ""] σ))
     = Some (ptrLogger (length (heap σ)))
  /\ trace (fst (New up dir lvl [WithFile ""] σ)) = trace σ
  /\ deref (length (heap σ)) (fst (New up dir lvl [WithFile ""] σ))
     = Some (main_logger lvl
               [zerolog.console (newConsoleWriter up Stdout)])
  /\ (forall opts : list Option,
        snd (snd (New up dir lvl (opts ++ [WithFile ""]) σ)) = None
        /\ trace (fst (New up dir lvl (opts ++ [WithFile ""]) σ)) = trace σ).
Proof.
  repeat split; try reflexivity.
  - apply (deref_alloc_new
             (main_logger lvl [zerolog.console (newConsoleWriter up Stdout)])).
  - rewrite New_no_file by now rewrite configure_snoc. reflexivity.
  - rewrite New_no_file by now rewrite configure_snoc. reflexivity.
Qed.

(** The four ways through [New]. *)
Lemma New_cases (lvl : Level) (opts : list Option) (σ : world) :
  let path := filePath (configure opts) in
  let console :=
    [zerolog.console (newConsoleWriter up (writer (configure opts)))] in
  let σ1 := perform [MkdirAll (dir path) 488] σ in
  let σ2 := perform [OpenFile path [O_APPEND; O_CREATE; O_WRONLY] 420] σ1 in
  (path = "" /\ New up dir lvl opts σ = build lvl console σ)
  \/ (path <> ""
      /\ exists e : error,
           MkdirAll_result (os σ) (dir path) = Some e
           /\ New up dir lvl opts σ
              = (σ1, (None,
                      Some (Errorf "logger: create log directory: %w" e))))
  \/ (path <> ""
      /\ MkdirAll_result (os σ) (dir path) = None
      /\ exists e : error,
           OpenFile_result (os σ) path = Some e
           /\ New up dir lvl opts σ
              = (σ2, (None, Some (Errorf "logger: open log file: %w" e))))
  \/ (path <> ""
      /\ MkdirAll_result (os σ) (dir path) = None
      /\ OpenFile_result (os σ) path = None
      /\ New up dir lvl opts σ
         = build lvl (console ++ [zerolog.raw (File path)]) σ2).
Proof.
  cbv zeta. unfold New. cbv zeta.
  destruct (String.eqb_spec (filePath (configure opts)) "") as [E|N];
    [left; now split|right].
  destruct (MkdirAll_result (os σ) (dir (filePath (configure opts))))
    as [e1|] eqn:M; [left; split; [exact N|]; exists e1; now split|right].
  destruct (OpenFile_result (os σ) (filePath (configure opts)))
    as [e2|] eqn:O; [left|right]; repeat split; try assumption.
  exists e2. now split.
Qed.

(** C5: when the configured file path is not empty and creating the parent
    directory fails, New returns a nil Logger and an error whose text starts
    with the directory step's prefix and that unwraps to the operating
    system's error; when the directory is fine and opening the file fails,
    the same with the file step's prefix; the two prefixes never give the
    same text; New allocates nothing in either case.  An error comes from
    one of these two steps only, so with an empty file path (in particular
    with writer options only) the error is nil and a Logger is returned. *)
Theorem New_failures (lvl : Level) (opts : list Option) (σ : world) :
  let path := filePath (configure opts) in
  let r := New up dir lvl opts σ in
  (path <> "" ->
   forall e : error, MkdirAll_result (os σ) (dir path) = Some e ->
     exists err : error,
       snd r = (None, Some err)
       /\ Error err = ("logger: create log directory: " ++ Error e)%string
       /\ Unwrap err = Some e
       /\ heap (fst r) = heap σ)
  /\ (path <> "" ->
      MkdirAll_result (os σ) (dir path) = None ->
      forall e : error, OpenFile_result (os σ) path = Some e ->
        exists err : error,
          snd r = (None, Some err)
          /\ Error err = ("logger: open log file: " ++ Error e)%string
          /\ Unwrap err = Some e
          /\ heap (fst r) = heap σ)
  /\ (forall a b : string,
        ("logger: create log directory: " ++ a)%string
        <> ("logger: open log file: " ++ b)%string)
  /\ (forall err : error,
        snd (snd r) = Some err ->
        fst (snd r) = None
        /\ path <> ""
        /\ exists e : error,
             Unwrap err = Some e
             /\ (MkdirAll_result (os σ) (dir path) = Some e
                 \/ (MkdirAll_result (os σ) (dir path) = None
                     /\ OpenFile_result (os σ) path = Some e)))
  /\ (path = "" -> snd (snd r) = None /\ is_Some (fst (snd r)))
  /\ (forall ws : list io_Writer,
        snd (snd (New up dir lvl (map WithWriter ws) σ)) = None).
Proof.
  cbv zeta.
  assert (forall a b : string,
            ("logger: create log directory: " ++ a)%string
            <> ("logger: open log file: " ++ b)%string) as Hd.
  { intros a b H. vm_compute in H. discriminate. }
  assert (forall ws : list io_Writer,
            snd (snd (New up dir lvl (map WithWriter ws) σ)) = None) as Hw.
  { intros ws. rewrite New_no_file by apply configure_writers. reflexivity. }
  destruct (New_cases lvl opts σ)
    as [[E R]|[(N & e1 & M & R)|[(N & M & e2 & O & R)|(N & M & O & R)]]];
    rewrite R; clear R.
  - repeat split; try congruence; try discriminate; try apply Hd; try apply Hw.
    eexists; reflexivity.
  - repeat split; try congruence; try discriminate; try apply Hd; try apply Hw.
    + intros _ e He. rewrite M in He. injection He as ->.
      eexists. split; [reflexivity|].
      split; [apply Errorf_mkdir|]. split; reflexivity.
    + simpl in H. injection H as <-. exists e1. split; [reflexivity|]. now left.
  - repeat split; try congruence; try discriminate; try apply Hd; try apply Hw.
    + intros _ _ e He. rewrite O in He. injection He as ->.
      eexists. split; [reflexivity|].
      split; [apply Errorf_open|]. split; reflexivity.
    + simpl in H. injection H as <-. exists e2. split; [reflexivity|].
      right. now split.
  - repeat split; try congruence; try discriminate; try apply Hd; try apply Hw.
Qed.

(** * Level filtering *)

Lemma levelMap_lookup (T : Z) :
  levelMap !! T
  = if T =? 0 then Some 0
    else if T =? 1 then Some 1
    else if T =? 2 then Some 2
    else if T =? 3 then Some 7
    else None.
Proof.
  unfold levelMap, LevelDebug, LevelInfo, LevelEvent, LevelDisabled,
    eventLevel, zerolog.DebugLevel, zerolog.InfoLevel, zerolog.Disabled.
  rewrite !lookup_insert, lookup_empty.
  repeat case_decide; subst; try reflexivity.
  repeat (rewrite (proj2 (Z.eqb_neq _ _)) by congruence). reflexivity.
Qed.

Lemma zlevel_cases (T : Level) :
  (T = 0 /\ zlevel T = 0) \/ (T = 1 /\ zlevel T = 1)
  \/ (T = 2 /\ zlevel T = 2) \/ ((T < 0 \/ 3 <= T) /\ zlevel T = 7).
Proof.
  unfold zlevel. rewrite levelMap_lookup.
  destruct (Z.eqb_spec T 0); [now left|].
  destruct (Z.eqb_spec T 1); [now (right; left)|].
  destruct (Z.eqb_spec T 2); [now (right; right; left)|].
  right; right; right.
  destruct (Z.eqb_spec T 3); (split; [lia | reflexivity]).
Qed.

Lemma should_spec (z : zerolog.Logger) (lvl : zerolog.Level) :
  zerolog.should z lvl = true <-> zerolog.level z <= lvl /\ -1 <= lvl.
Proof.
  unfold zerolog.should, zerolog.GlobalLevel, zerolog.TraceLevel.
  rewrite negb_true_iff, orb_false_iff, !Z.ltb_ge. tauto.
Qed.

Lemma Msgf_rejected (z : zerolog.Logger) (lvl : zerolog.Level)
    (format : string) (a : list string) (σ : world) :
  zerolog.should z lvl = false ->
  zerolog_Msgf z (zerolog.newEvent z lvl) format a σ = σ.
Proof. intros H. unfold zerolog.newEvent. now rewrite H. Qed.

Lemma Msgf_accepted (z : zerolog.Logger) (lvl : zerolog.Level)
    (format : string) (a : list string) (σ : world) :
  zerolog.should z lvl = true -> lvl <> zerolog.Disabled ->
  trace (zerolog_Msgf z (zerolog.newEvent z lvl) format a σ)
  = (trace σ
     ++ writes
          (record_of σ z
             {| zerolog.ev_level := lvl; zerolog.ev_fields := [] |}
             (Sprintf format a)) z)%list.
Proof.
  intros H Hl. unfold zerolog.newEvent. rewrite H.
  unfold zerolog_Msgf. now rewrite trace_Msg.
Qed.

Lemma app_cons_neq {A : Type} (l : list A) (x : A) (r : list A) :
  (l ++ x :: r)%list <> l.
Proof.
  intros H. apply (f_equal (@length A)) in H.
  rewrite length_app in H. simpl in H. lia.
Qed.

(** A call that has a level, made on a live logger with at least one
    writer: it returns, and it writes exactly when the backend threshold is
    at most the call's level; otherwise the state is untouched. *)
Lemma call_threshold (p : nat) (l : logger) (c : call) (Lc : Level)
    (σ : world) :
  deref p σ = Some l -> zerolog.w (zl l) <> [] ->
  call_level c = Some Lc ->
  exists σ' : world,
    do_call (ptrLogger p) c σ = Some σ'
    /\ (zerolog.level (zl l) <= Lc -> trace σ' <> trace σ)
    /\ (Lc < zerolog.level (zl l) -> σ' = σ).
Proof.
  intros Hl Hw Hc.
  assert (forall (lvl : zerolog.Level) (format : string) (a : list string),
            0 <= lvl < 7 ->
            (zerolog.level (zl l) <= lvl ->
             trace (zerolog_Msgf (zl l) (zerolog.newEvent (zl l) lvl)
                      format a σ) <> trace σ)
            /\ (lvl < zerolog.level (zl l) ->
                zerolog_Msgf (zl l) (zerolog.newEvent (zl l) lvl) format a σ
                = σ)) as H.
  { intros lvl format a Hr. split; intros Hle.
    - rewrite Msgf_accepted;
        [|apply should_spec; lia | unfold zerolog.Disabled; lia].
      unfold writes. destruct (zerolog.w (zl l)) as [|wr ws]; [congruence|].
      simpl. apply app_cons_neq.
    - apply Msgf_rejected. apply not_true_is_false.
      rewrite should_spec. lia. }
  destruct c as [m|m|k v|e m]; simpl in Hc; try discriminate;
    injection Hc as <-; simpl; rewrite Hl; simpl; eexists;
    (split; [reflexivity|]).
  - apply (H zerolog.InfoLevel). unfold zerolog.InfoLevel. lia.
  - apply (H 2). lia.
  - apply (H zerolog.DebugLevel). unfold zerolog.DebugLevel. lia.
Qed.

(** C1: take the Logger that New returns for a threshold T that is not
    below LevelDebug.  An Info, Event or Debug call on it returns, and it
    writes something exactly when its level (LevelInfo, LevelEvent,
    LevelDebug) is at least T; below T the whole state stays as it was.  At
    LevelInfo, Info appends to the configured writer a console line whose
    message is the bracketed main label and the text as the backend's
    encoder writes them, which is that very text when the argument is valid
    UTF-8, while Debug changes nothing.  At LevelDisabled (or above) no
    call, Error included, changes the state, so no destination receives a
    byte. *)
Theorem level_filtering (T : Level) (opts : list Option) (σ σ' : world)
    (L : Logger) :
  LevelDebug <= T ->
  New up dir T opts σ = (σ', (Some L, None)) ->
  (forall (c : call) (Lc : Level),
     call_level c = Some Lc ->
     exists σ'' : world,
       do_call L c σ' = Some σ''
       /\ (trace σ'' <> trace σ' <-> T <= Lc)
       /\ (Lc < T -> σ'' = σ'))
  /\ (T = LevelInfo ->
      forall m k v : string,
        (exists (σ'' : world) (rest : list effect),
           Logger_Info L m σ' = Some σ''
           /\ trace σ''
              = (trace σ'
                 ++ Write (writer (configure opts))
                      (zerolog.text
                         {| zerolog.l_time := Some (clock σ' (ticks σ'));
                            zerolog.l_timeformat := zerolog.TimeFormatUnix;
                            zerolog.l_level :=
                              formatLevel up
                                (anyString
                                   (zerolog.json_text
                                      (LevelFieldMarshalFunc (glob σ')
                                         zerolog.InfoLevel)));
                            zerolog.l_message :=
                              Some (zerolog.json_text ("[main] " ++ m)%string);
                            zerolog.l_fields := [] |})
                 :: rest)%list
           /\ (utf8.ValidString m = true ->
               zerolog.json_text ("[main] " ++ m)%string
               = ("[main] " ++ m)%string))
        /\ Logger_Debug L k v σ' = Some σ')
  /\ (LevelDisabled <= T -> forall c : call, do_call L c σ' = Some σ').
Proof.
  unfold LevelDebug, LevelInfo, LevelDisabled.
  intros HT HN.
  destruct (New_ok _ _ _ _ _ HN) as (ws & σ0 & -> & Hh & ->).
  set (l := main_logger T
              (zerolog.console (newConsoleWriter up (writer (configure opts)))
               :: ws)).
  assert (deref (length (heap σ)) (snd (alloc (objLogger l) σ0)) = Some l)
    as Hl by (rewrite <- Hh; apply deref_alloc_new).
  set (σ1 := snd (alloc (objLogger l) σ0)) in *.
  assert (zerolog.level (zl l) = zlevel T) as Hz by reflexivity.
  split; [|split].
  - intros c Lc Hc.
    destruct (call_threshold _ l c Lc σ1 Hl ltac:(discriminate) Hc)
      as (σ'' & Hd & Hyes & Hno).
    exists σ''. split; [exact Hd|]. rewrite Hz in Hyes, Hno.
    assert (Lc = 0 \/ Lc = 1 \/ Lc = 2) as HLc.
    { destruct c; simpl in Hc; try discriminate; injection Hc as <-;
        unfold LevelInfo, LevelEvent, LevelDebug; lia. }
    destruct (zlevel_cases T) as [[-> E]|[[-> E]|[[-> E]|[HT' E]]]];
      rewrite E in Hyes, Hno.
    + split; [split; [lia | intros; apply Hyes; lia] | lia].
    + destruct (Z.le_gt_cases 1 Lc).
      * split; [split; [lia | intros; apply Hyes; lia] | lia].
      * rewrite Hno by lia. split; [split; [congruence | lia] | auto].
    + destruct (Z.le_gt_cases 2 Lc).
      * split; [split; [lia | intros; apply Hyes; lia] | lia].
      * rewrite Hno by lia. split; [split; [congruence | lia] | auto].
    + rewrite Hno by lia. split; [split; [congruence | lia] | auto].
  - intros -> m k v. split.
    + exists (logger_Info l m σ1), (writes
        (record_of σ1 (zl l)
           {| zerolog.ev_level := zerolog.InfoLevel; zerolog.ev_fields := [] |}
           ("[main] " ++ m)%string)
        {| zerolog.w := ws; zerolog.level := zerolog.level (zl l);
           zerolog.timestamp := true |}).
      split; [simpl; rewrite Hl; reflexivity|]. split.
      * unfold logger_Info, zerolog.Info.
        rewrite Msgf_accepted; [|reflexivity|discriminate].
        rewrite Sprintf_Info. reflexivity.
      * intros Hm. apply json_text_valid. valid_text.
    + simpl. rewrite Hl. reflexivity.
  - intros HT' c.
    assert (zlevel T = 7) as E.
    { destruct (zlevel_cases T) as [[-> E]|[[-> E]|[[-> E]|[_ E]]]];
        try lia; exact E. }
    assert (forall lvl, lvl < 7 -> zerolog.should (zl l) lvl = false) as Hs.
    { intros lvl Hlt. apply not_true_is_false. rewrite should_spec.
      rewrite Hz, E. lia. }
    destruct c as [m|m|k v|e m]; simpl; rewrite Hl; simpl; f_equal.
    + apply Msgf_rejected, Hs. reflexivity.
    + apply Msgf_rejected, Hs. reflexivity.
    + apply Msgf_rejected, Hs. reflexivity.
    + unfold logger_Error, zerolog.Error, zerolog.newEvent.
      rewrite Hs by reflexivity. reflexivity.
Qed.

End Constructor.

(** * The statements at concrete inputs *)

Lemma level_filtering_witness :
  let σ' :=
    fst (New no_case dir_of LevelInfo [WithWriter (Buffer 0)]
           (start os_ok)) in
  LevelDebug <= LevelInfo
  /\ (exists σ'' : world,
        do_call (ptrLogger 0) (callInfo "should-appear") σ' = Some σ''
        /\ (trace σ'' <> trace σ' <-> LevelInfo <= LevelInfo))
  /\ Logger_Debug (ptrLogger 0) "should-not-appear" "value" σ' = Some σ'.
Proof.
  cbv zeta.
  assert (LevelDebug <= LevelInfo) as H1 by (vm_compute; discriminate).
  destruct (level_filtering no_case dir_of LevelInfo
              [WithWriter (Buffer 0)] (start os_ok) _ _ H1 eq_refl)
    as (A & B & _).
  split; [exact H1|]. split.
  - destruct (A (callInfo "should-appear") LevelInfo eq_refl)
      as (σ'' & Hd & Hiff & _).
    exists σ''. split; assumption.
  - exact (proj2 (B eq_refl "" "should-not-appear" "value")).
Defined.

Lemma New_failures_witness :
  (exists err : error,
     snd (New no_case dir_of LevelInfo [WithFile "logs/app.log"]
            (start os_no_mkdir)) = (None, Some err)
     /\ Error err = "logger: create log directory: permission denied"
     /\ Unwrap err = Some (plainError "permission denied"))
  /\ (exists err : error,
        snd (New no_case dir_of LevelInfo [WithFile "logs/app.log"]
               (start os_no_open)) = (None, Some err)
        /\ Error err = "logger: open log file: is a directory"
        /\ Unwrap err = Some (plainError "is a directory")).
Proof.
  assert ("logs/app.log" <> "") as Hp by discriminate.
  split.
  - destruct (proj1 (New_failures no_case dir_of LevelInfo
                       [WithFile "logs/app.log"] (start os_no_mkdir))
                Hp (plainError "permission denied") eq_refl)
      as (err & H1 & H2 & H3 & _).
    exists err. repeat split; assumption.
  - destruct (proj1 (proj2 (New_failures no_case dir_of LevelInfo
                       [WithFile "logs/app.log"] (start os_no_open)))
                Hp eq_refl (plainError "is a directory") eq_refl)
      as (err & H1 & H2 & H3 & _).
    exists err. repeat split; assumption.
Defined.

(** * The package's tests, replayed on the model *)

Example TestParseLevel :
  map (ParseLevel no_case)
    ["debug"; "DEBUG"; "info"; "Info"; "event"; "EVENT"; "unknown"; ""]
  = [LevelDebug; LevelDebug; LevelInfo; LevelInfo; LevelEvent; LevelEvent;
     LevelDisabled; LevelDisabled].
Proof. reflexivity. Qed.

Example TestScope :
  let '(σ, _) := New no_case dir_of LevelInfo [WithWriter (Buffer 0)]
                   (start os_ok) in
  ('(scoped, σ') ← Logger_Scope (ptrLogger 0) "db" σ;
   option_map (fun s => messages (trace s))
     (Logger_Info scoped "query executed" σ'))
  = Some [(Buffer 0, Some "[db] query executed")].
Proof. reflexivity. Qed.

Example TestAllMethods :
  option_map messages
    (after_calls LevelDebug [WithWriter (Buffer 0)] os_ok
       [callInfo "info msg"; callEvent "event msg"; callDebug "key" "value";
        callError (Some (plainError "test error")) "error msg"])
  = Some [(Buffer 0, Some "[main] info msg");
          (Buffer 0, Some "-event msg (main)");
          (Buffer 0, Some " key: value (main)");
          (Buffer 0, Some "[main] error msg")].
Proof. reflexivity. Qed.

Example TestLevelFiltering :
  option_map messages
    (after_calls LevelInfo [WithWriter (Buffer 0)] os_ok
       [callDebug "should-not-appear" "value"; callInfo "should-appear"])
  = Some [(Buffer 0, Some "[main] should-appear")].
Proof. reflexivity. Qed.

Example TestDisabledLevel :
  after_calls LevelDisabled [WithWriter (Buffer 0)] os_ok
    [callInfo "silent"; callError (Some (plainError "err")) "silent error"]
  = Some [].
Proof. reflexivity. Qed.

Example TestNewWithFile :
  after_calls LevelInfo [WithFile "tmp/sub/test.log"] os_ok
    [callInfo "file test"]
  = Some
      [MkdirAll "tmp/sub" 488;
       OpenFile "tmp/sub/test.log" [O_APPEND; O_CREATE; O_WRONLY] 420;
       Write Stdout
         (zerolog.text
            {| zerolog.l_time := Some 1000;
               zerolog.l_timeformat := "";
               zerolog.l_level := colorGreen ++ "INF" ++ colorReset;
               zerolog.l_message := Some "[main] file test";
               zerolog.l_fields := [] |});
       Write (File "tmp/sub/test.log")
         (zerolog.json
            {| zerolog.r_level := Some "info";
               zerolog.r_fields := [];
               zerolog.r_time := Some 1000;
               zerolog.r_message := Some "[main] file test" |})].
Proof. reflexivity. Qed.

Example TestNewNoop :
  let '(l, σ) := NewNoop (start os_ok) in
  (σ1 ← Logger_Info l "test" σ;
   σ2 ← Logger_Event l "test" σ1;
   σ3 ← Logger_Debug l "k" "v" σ2;
   σ4 ← Logger_Error l (Some (plainError "err")) "test" σ3;
   '(sub, σ5) ← Logger_Scope l "sub" σ4;
   Logger_Info sub "test" σ5)
  = Some σ.
Proof. reflexivity. Qed.

(** * Options *)

Lemma fold_WithWriter (ws : list io_Writer) : forall cfg : options,
  filePath (fold_left (fun c (o : Option) => o c) (map WithWriter ws) cfg)
  = filePath cfg.
Proof.
  induction ws as [|x ws IH]; intros cfg; simpl; [reflexivity|].
  now rewrite IH.
Qed.

Lemma fold_WithFile (ps : list string) : forall cfg : options,
  writer (fold_left (fun c (o : Option) => o c) (map WithFile ps) cfg)
  = writer cfg.
Proof.
  induction ps as [|x ps IH]; intros cfg; simpl; [reflexivity|].
  now rewrite IH.
Qed.

(** Options are applied in the order given and each touches its own field
    only: the file path is the one of the last WithFile and the writer the
    one of the last WithWriter, whatever options of the other kind follow;
    before any option the path is empty and the writer is standard
    output. *)
Theorem options_last_wins (opts : list Option) (path : string)
    (wr : io_Writer) (ps : list string) (ws : list io_Writer) :
  filePath (configure (opts ++ WithFile path :: map WithWriter ws)) = path
  /\ writer (configure (opts ++ WithWriter wr :: map WithFile ps)) = wr
  /\ writer (configure (opts ++ [WithFile path])) = writer (configure opts)
  /\ filePath (configure (opts ++ [WithWriter wr]))
     = filePath (configure opts)
  /\ filePath (configure (map WithWriter ws)) = ""
  /\ writer (configure (map WithFile ps)) = Stdout.
Proof.
  unfold configure. repeat split.
  - rewrite fold_left_app. simpl. now rewrite fold_WithWriter.
  - rewrite fold_left_app. simpl. now rewrite fold_WithFile.
  - now rewrite fold_left_app.
  - now rewrite fold_left_app.
  - now rewrite fold_WithWriter.
  - now rewrite fold_WithFile.
Qed.

(** * What a call can change *)

Lemma destinations_app (a b : list effect) :
  destinations (a ++ b) = (destinations a ++ destinations b)%list.
Proof. unfold destinations. apply flat_map_app. Qed.

Lemma writes_destinations (r : zerolog.Entry) (z : zerolog.Logger) :
  destinations (writes r z) = map writer_dst (zerolog.w z).
Proof.
  unfold writes. induction (zerolog.w z) as [|wr ws IH]; [reflexivity|].
  simpl. rewrite IH. now destruct wr.
Qed.

Lemma writes_are_writes (r : zerolog.Entry) (z : zerolog.Logger) :
  forallb is_Write (writes r z) = true.
Proof.
  unfold writes. induction (zerolog.w z) as [|wr ws IH]; [reflexivity|].
  simpl. rewrite IH. now destruct wr.
Qed.

Lemma extends_refl (D : io_Writer -> Prop) (σ : world) : extends D σ σ.
Proof.
  unfold extends. repeat split; try reflexivity.
  exists []. rewrite app_nil_r. repeat split. intros d [].
Qed.

Lemma extends_trans (D : io_Writer -> Prop) (σ1 σ2 σ3 : world) :
  extends D σ1 σ2 -> extends D σ2 σ3 -> extends D σ1 σ3.
Proof.
  intros (H1 & O1 & C1 & G1 & T1 & es1 & E1 & W1 & D1)
         (H2 & O2 & C2 & G2 & T2 & es2 & E2 & W2 & D2).
  unfold extends. repeat split; try congruence; try lia.
  exists (es1 ++ es2)%list. split; [|split].
  - rewrite E2, E1. now rewrite app_assoc.
  - rewrite forallb_app, W1, W2. reflexivity.
  - intros d. rewrite destinations_app, in_app_iff. intros [H|H]; auto.
Qed.

Lemma extends_weaken (D D' : io_Writer -> Prop) (σ σ' : world) :
  (forall d, D d -> D' d) -> extends D σ σ' -> extends D' σ σ'.
Proof.
  intros HD (H1 & O1 & C1 & G1 & T1 & es & E & W & Hd).
  unfold extends. repeat split; try assumption.
  exists es. repeat split; auto.
Qed.

Lemma Msgf_extends (z : zerolog.Logger) (e : option zerolog.Event)
    (format : string) (a : list string) (σ : world) :
  extends (fun d => In d (map writer_dst (zerolog.w z))) σ
    (zerolog_Msgf z e format a σ).
Proof.
  destruct e as [ev|]; [|apply extends_refl].
  unfold zerolog_Msgf, zerolog_Msg.
  destruct (zerolog.ev_level ev =? zerolog.Disabled).
  - destruct (zerolog.timestamp z); [|apply extends_refl].
    unfold extends; simpl. repeat split; try lia.
    exists []. rewrite app_nil_r. repeat split. intros d [].
  - unfold extends.
    destruct (zerolog.timestamp z); simpl; repeat split; try lia;
      (eexists; split; [reflexivity|]; split;
       [apply writes_are_writes | now rewrite writes_destinations]).
Qed.

Lemma do_call_extends (p : nat) (l : logger) (c : call) (σ σ' : world) :
  deref p σ = Some l -> do_call (ptrLogger p) c σ = Some σ' ->
  extends (fun d => In d (map writer_dst (zerolog.w (zl l)))) σ σ'.
Proof.
  intros Hl. destruct c; simpl; rewrite Hl; simpl; intros [= <-];
    apply Msgf_extends.
Qed.

Lemma run_extends (p : nat) (l : logger) (cs : list call) :
  forall σ σ' : world,
    deref p σ = Some l -> run (ptrLogger p) cs σ = Some σ' ->
    extends (fun d => In d (map writer_dst (zerolog.w (zl l)))) σ σ'.
Proof.
  induction cs as [|c cs IH]; intros σ σ' Hl; simpl.
  - intros [= <-]. apply extends_refl.
  - destruct (do_call (ptrLogger p) c σ) as [σ1|] eqn:E; simpl;
      [|discriminate].
    intros Hr. eapply extends_trans; [eapply do_call_extends; eauto|].
    apply IH; [|exact Hr].
    rewrite (deref_heap p σ σ1); [exact Hl|]. symmetry.
    symmetry. eapply heap_do_call; eauto.
Qed.

(** However many calls are made and on whichever Logger, logging only
    appends writes to the trace and reads the clock: it allocates nothing,
    keeps every struct, never creates a directory or opens a file again,
    and leaves the operating system, the clock and the globals alone. *)
Theorem calls_only_write (L : Logger) (cs : list call) (σ σ' : world) :
  run L cs σ = Some σ' ->
  heap σ' = heap σ /\ os σ' = os σ /\ clock σ' = clock σ
  /\ glob σ' = glob σ /\ (ticks σ <= ticks σ')%nat
  /\ exists es : list effect,
       trace σ' = (trace σ ++ es)%list /\ forallb is_Write es = true.
Proof.
  intros Hr.
  assert (extends (fun _ => True) σ σ')
    as (H1 & O1 & C1 & G1 & T1 & es & E & W & _).
  { destruct L as [p|n].
    - destruct cs as [|c cs]; [injection Hr as <-; apply extends_refl|].
      destruct (deref p σ) as [l|] eqn:Hl.
      + eapply extends_weaken; [|eapply run_extends; eauto]. auto.
      + simpl in Hr. destruct c; simpl in Hr; rewrite Hl in Hr;
          discriminate.
    - rewrite run_Noop in Hr. injection Hr as <-. apply extends_refl. }
  repeat split; try assumption. exists es. now split.
Qed.

(** * The Logger New returns *)

Section Coverage.

(** The upper-case table of [unicode] and [filepath.Dir], as in the package. *)
Variable up : Z -> Z.
Variable dir : string -> string.

(** A successful [New], spelled out: the state before the allocation, the
    pointer and the struct. *)
Lemma New_success (lvl : Level) (opts : list Option) (σ σ' : world)
    (L : Logger) :
  New up dir lvl opts σ = (σ', (Some L, None)) ->
  L = ptrLogger (length (heap σ))
  /\ heap σ' = (heap σ
               ++ [objLogger
                     (main_logger lvl (New_writers up (configure opts)))])%list
  /\ trace σ' = (trace σ ++ New_fs_effects dir (configure opts))%list
  /\ ticks σ' = ticks σ /\ os σ' = os σ /\ clock σ' = clock σ
  /\ glob σ' = glob σ
  /\ (filePath (configure opts) <> "" ->
      MkdirAll_result (os σ) (dir (filePath (configure opts))) = None
      /\ OpenFile_result (os σ) (filePath (configure opts)) = None).
Proof.
  unfold New, New_writers, New_fs_effects. cbv zeta.
  destruct (String.eqb_spec (filePath (configure opts)) "") as [E|N].
  - rewrite build_spec. intros [= <- <-]. simpl.
    rewrite app_nil_r. repeat split; congruence.
  - destruct (MkdirAll_result (os σ) _); [discriminate|].
    destruct (OpenFile_result (os σ) _); [discriminate|].
    rewrite build_spec. intros [= <- <-]. simpl.
    rewrite <- app_assoc. repeat split.
Qed.

Lemma New_deref (lvl : Level) (opts : list Option) (σ σ' : world)
    (L : Logger) :
  New up dir lvl opts σ = (σ', (Some L, None)) ->
  deref (length (heap σ)) σ'
  = Some (main_logger lvl (New_writers up (configure opts))).
Proof.
  intros H. apply New_success in H as (_ & Hh & _).
  unfold deref. rewrite Hh, lookup_app_r by lia.
  now rewrite Nat.sub_diag.
Qed.

(** With a non-empty path and an operating system that accepts both steps,
    New returns a nil error and a pointer to one new struct, labelled main,
    whose writers are the console writer over the configured writer and then
    the file.  Its only effects are, in this order, MkdirAll on the path's
    directory with mode 0750 and OpenFile on the path with the append,
    create and write-only flags and mode 0644; nothing is written yet and
    the clock is not read. *)
Theorem New_with_file (lvl : Level) (opts : list Option) (σ : world) :
  let path := filePath (configure opts) in
  path <> "" ->
  MkdirAll_result (os σ) (dir path) = None ->
  OpenFile_result (os σ) path = None ->
  exists σ' : world,
    New up dir lvl opts σ = (σ', (Some (ptrLogger (length (heap σ))), None))
    /\ trace σ'
       = (trace σ
          ++ [MkdirAll (dir path) 488;
              OpenFile path [O_APPEND; O_CREATE; O_WRONLY] 420])%list
    /\ deref (length (heap σ)) σ'
       = Some {| zl := {| zerolog.w :=
                            [zerolog.console
                               (newConsoleWriter up (writer (configure opts)));
                             zerolog.raw (File path)];
                          zerolog.level := zlevel lvl;
                          zerolog.timestamp := true |};
                 scope := "main" |}
    /\ length (heap σ') = S (length (heap σ))
    /\ (forall q : nat,
          (q < length (heap σ))%nat -> heap σ' !! q = heap σ !! q)
    /\ ticks σ' = ticks σ.
Proof.
  cbv zeta. intros N M O.
  destruct (New_cases up dir lvl opts σ)
    as [[E _]|[(_ & e & M' & _)|[(_ & _ & e & O' & _)|(_ & _ & _ & R)]]];
    try congruence.
  rewrite R, build_spec. eexists. split; [reflexivity|].
  split; [simpl; now rewrite <- app_assoc|].
  split; [unfold deref; simpl; rewrite lookup_app_r by lia;
          now rewrite Nat.sub_diag|].
  split; [simpl; rewrite length_app; simpl; lia|].
  split; [|reflexivity].
  intros q Hq. simpl. now rewrite lookup_app_l.
Qed.

(** When creating the directory fails, New stops there: the only effect is
    the MkdirAll call and the file is never opened.  When the directory is
    fine and opening the file fails, the effects are the MkdirAll call and
    the OpenFile call.  In both cases nothing is allocated and nothing is
    written. *)
Theorem New_failure_effects (lvl : Level) (opts : list Option) (σ : world)
    (e : error) :
  let path := filePath (configure opts) in
  let σ' := fst (New up dir lvl opts σ) in
  path <> "" ->
  (MkdirAll_result (os σ) (dir path) = Some e ->
   trace σ' = (trace σ ++ [MkdirAll (dir path) 488])%list
   /\ heap σ' = heap σ)
  /\ (MkdirAll_result (os σ) (dir path) = None ->
      OpenFile_result (os σ) path = Some e ->
      trace σ'
      = (trace σ
         ++ [MkdirAll (dir path) 488;
             OpenFile path [O_APPEND; O_CREATE; O_WRONLY] 420])%list
      /\ heap σ' = heap σ).
Proof.
  cbv zeta. intros N.
  destruct (New_cases up dir lvl opts σ)
    as [[E _]|[(_ & e1 & M & R)|[(_ & M & e2 & O & R)|(_ & M & O & R)]]];
    try congruence; rewrite R; split; intros; try congruence.
  - simpl. split; reflexivity.
  - simpl. rewrite <- app_assoc. split; reflexivity.
Qed.

(** Every write made through the Logger New returns goes to the configured
    writer (standard output when none was given) or, when a file path is
    configured, to that file; so with WithWriter nothing reaches standard
    output unless it is the writer given. *)
Theorem writes_reach_configured_only (lvl : Level) (opts : list Option)
    (cs : list call) (σ σ' σ'' : world) (L : Logger) :
  New up dir lvl opts σ = (σ', (Some L, None)) ->
  run L cs σ' = Some σ'' ->
  exists es : list effect,
    trace σ'' = (trace σ' ++ es)%list
    /\ forallb is_Write es = true
    /\ forall d : io_Writer,
         In d (destinations es) ->
         d = writer (configure opts)
         \/ (filePath (configure opts) <> ""
             /\ d = File (filePath (configure opts))).
Proof.
  intros HN Hr. pose proof (New_deref _ _ _ _ _ HN) as Hl.
  apply New_success in HN as (-> & _).
  destruct (run_extends _ _ cs σ' σ'' Hl Hr)
    as (_ & _ & _ & _ & _ & es & E & W & D).
  exists es. split; [exact E|]. split; [exact W|].
  intros d Hd. specialize (D d Hd). simpl in D. unfold New_writers in D.
  destruct (String.eqb_spec (filePath (configure opts)) "") as [Ep|Np];
    simpl in D.
  - destruct D as [<-|[]]. now left.
  - destruct D as [<-|[<-|[]]]; [now left|right; now split].
Qed.

(** A call on a live logger: rejected by the level check, or one record
    for the call's level handed to [Msg]. *)
Lemma do_call_cases (p : nat) (l : logger) (c : call) (σ : world) :
  deref p σ = Some l ->
  (zerolog.should (zl l) (call_backend_level c) = false
   /\ do_call (ptrLogger p) c σ = Some σ)
  \/ (zerolog.should (zl l) (call_backend_level c) = true
      /\ exists (fields : list (string * string)) (msg : string),
           do_call (ptrLogger p) c σ
           = Some (zerolog_Msg (zl l)
                     (Some {| zerolog.ev_level := call_backend_level c;
                              zerolog.ev_fields := fields |}) msg σ)).
Proof.
  intros Hl.
  assert (zerolog.WithLevel (zl l) eventLevel
          = zerolog.newEvent (zl l) eventLevel) as HW by reflexivity.
  assert (do_call (ptrLogger p) c σ
          = Some (zerolog_Msgf (zl l)
                    (zerolog.Event_Err
                       (zerolog.newEvent (zl l) (call_backend_level c))
                       (match c with callError e _ => e | _ => None end))
                    (match c with
                     | callInfo _ | callError _ _ => "[%s] %s"
                     | callEvent _ => "-%s (%s)"
                     | callDebug _ _ => " %s: %s (%s)"
                     end)
                    (match c with
                     | callInfo m | callError _ m => [scope l; m]
                     | callEvent m => [m; scope l]
                     | callDebug k v => [k; v; scope l]
                     end) σ)) as ->.
  { destruct c as [m|m|k v|e m]; unfold do_call, Logger_Info, Logger_Event,
      Logger_Debug, Logger_Error; rewrite Hl; cbn [mbind option_bind];
      unfold logger_Info, logger_Event, logger_Debug, logger_Error;
      rewrite ?HW; clear HW; unfold zerolog.Info, zerolog.Debug,
      zerolog.Error, zerolog.Event_Err, call_backend_level;
      try reflexivity;
      match goal with
      | |- context [zerolog.newEvent ?z ?v] =>
          destruct (zerolog.newEvent z v); reflexivity
      end. }
  unfold zerolog.newEvent.
  destruct (zerolog.should (zl l) (call_backend_level c)) eqn:Hs;
    [right|left]; (split; [reflexivity|]); [|reflexivity].
  unfold zerolog.Event_Err, zerolog_Msgf.
  destruct (match c with callError e _ => e | _ => None end);
    eexists _, _; reflexivity.
Qed.

Lemma call_backend_level_range (c : call) : 0 <= call_backend_level c <= 3.
Proof.
  destruct c; simpl; unfold eventLevel; vm_compute; split; discriminate.
Qed.

Lemma Msg_timestamped (z : zerolog.Logger) (ev : zerolog.Event)
    (msg : string) (σ : world) :
  zerolog.timestamp z = true -> zerolog.ev_level ev <> zerolog.Disabled ->
  zerolog_Msg z (Some ev) msg σ
  = perform (writes (record_of σ z ev msg) z) (tick σ)
  /\ zerolog.r_time (record_of σ z ev msg) = Some (clock σ (ticks σ)).
Proof.
  intros Ht Hl. unfold zerolog_Msg, record_of. simpl.
  rewrite Ht. apply Z.eqb_neq in Hl. now rewrite Hl.
Qed.

(** Through the Logger New returns with a file path configured, a call
    either changes nothing or appends exactly two writes: the console line
    for one record to the configured writer, then that same record to the
    file, so both destinations get the same message, fields and time. *)
Theorem file_fan_out (lvl : Level) (opts : list Option) (σ σ' : world)
    (L : Logger) (c : call) :
  let cfg := configure opts in
  New up dir lvl opts σ = (σ', (Some L, None)) ->
  filePath cfg <> "" ->
  exists σ'' : world,
    do_call L c σ' = Some σ''
    /\ (σ'' = σ'
        \/ exists r : zerolog.Entry,
             trace σ''
             = (trace σ'
                ++ [Write (writer cfg)
                      (zerolog.text
                         (zerolog.console_line
                            (newConsoleWriter up (writer cfg)) r));
                    Write (File (filePath cfg)) (zerolog.json r)])%list).
Proof.
  cbv zeta. intros HN Np. pose proof (New_deref _ _ _ _ _ HN) as Hl.
  apply New_success in HN as (-> & _).
  destruct (do_call_cases _ _ c σ' Hl) as [[_ Hd]|(_ & fs & msg & Hd)];
    rewrite Hd; eexists; (split; [reflexivity|]); [now left|right].
  pose proof (call_backend_level_range c) as Hr.
  destruct (Msg_timestamped
              (zl (main_logger lvl (New_writers up (configure opts))))
              {| zerolog.ev_level := call_backend_level c;
                 zerolog.ev_fields := fs |} msg σ' eq_refl) as [-> _].
  { simpl. unfold zerolog.Disabled. lia. }
  eexists. simpl. unfold writes, New_writers. simpl.
  rewrite (proj2 (String.eqb_neq _ _) Np). reflexivity.
Qed.

(** Every record written through the Logger New returns carries the clock
    reading taken for it: a call either changes nothing, or reads the clock
    once and hands each writer one record stamped with that reading. *)
Theorem records_are_timestamped (lvl : Level) (opts : list Option)
    (σ σ' : world) (L : Logger) (c : call) :
  New up dir lvl opts σ = (σ', (Some L, None)) ->
  exists σ'' : world,
    do_call L c σ' = Some σ''
    /\ (σ'' = σ'
        \/ exists r : zerolog.Entry,
             zerolog.r_time r = Some (clock σ' (ticks σ'))
             /\ ticks σ'' = S (ticks σ')
             /\ trace σ''
                = (trace σ'
                   ++ writes r
                        (zl (main_logger lvl
                               (New_writers up (configure opts)))))%list).
Proof.
  intros HN. pose proof (New_deref _ _ _ _ _ HN) as Hl.
  apply New_success in HN as (-> & _).
  destruct (do_call_cases _ _ c σ' Hl) as [[_ Hd]|(_ & fs & msg & Hd)];
    rewrite Hd; eexists; (split; [reflexivity|]); [now left|right].
  pose proof (call_backend_level_range c) as Hr.
  destruct (Msg_timestamped
              (zl (main_logger lvl (New_writers up (configure opts))))
              {| zerolog.ev_level := call_backend_level c;
                 zerolog.ev_fields := fs |} msg σ' eq_refl) as [-> Ht].
  { simpl. unfold zerolog.Disabled. lia. }
  eexists. split; [exact Ht|]. split; reflexivity.
Qed.

Lemma New_writes_something (lvl : Level) (opts : list Option)
    (r : zerolog.Entry) (t : list effect) :
  (t ++ writes r (zl (main_logger lvl (New_writers up (configure opts)))))%list
  <> t.
Proof. unfold writes. simpl. apply app_cons_neq. Qed.

(** On the Logger New returns, a call is written exactly when the backend
    threshold of the requested level is at most the backend level of the
    call; otherwise it leaves the state as it is. *)
Lemma New_call_written (lvl : Level) (opts : list Option) (σ σ' : world)
    (L : Logger) (c : call) :
  New up dir lvl opts σ = (σ', (Some L, None)) ->
  exists σ'' : world,
    do_call L c σ' = Some σ''
    /\ (trace σ'' <> trace σ' <-> zlevel lvl <= call_backend_level c)
    /\ (call_backend_level c < zlevel lvl -> σ'' = σ').
Proof.
  intros HN. pose proof (New_deref _ _ _ _ _ HN) as Hl.
  apply New_success in HN as (-> & _).
  pose proof (call_backend_level_range c) as Hr.
  destruct (do_call_cases _ _ c σ' Hl) as [[Hs Hd]|(Hs & fs & msg & Hd)];
    rewrite Hd; eexists; (split; [reflexivity|]).
  - apply not_true_iff_false in Hs. rewrite (should_spec up) in Hs. simpl in Hs.
    split; [split; [congruence | lia] | reflexivity].
  - apply (should_spec up) in Hs. simpl in Hs.
    destruct (Msg_timestamped
                (zl (main_logger lvl (New_writers up (configure opts))))
                {| zerolog.ev_level := call_backend_level c;
                   zerolog.ev_fields := fs |} msg σ' eq_refl) as [-> _].
    { simpl. unfold zerolog.Disabled. lia. }
    split; [split; [lia|]|lia].
    intros _. simpl. apply New_writes_something.
Qed.

(** An Error call through the Logger New returns is written exactly when
    the requested level is LevelDebug, LevelInfo or LevelEvent: errors pass
    every threshold but LevelDisabled, and a level outside the table counts
    as disabled. *)
Theorem Error_passes_below_Disabled (lvl : Level) (opts : list Option)
    (σ σ' : world) (L : Logger) (err : option error) (msg : string) :
  New up dir lvl opts σ = (σ', (Some L, None)) ->
  exists σ'' : world,
    Logger_Error L err msg σ' = Some σ''
    /\ (trace σ'' <> trace σ' <-> LevelDebug <= lvl < LevelDisabled)
    /\ (lvl < LevelDebug \/ LevelDisabled <= lvl -> σ'' = σ').
Proof.
  intros HN.
  destruct (New_call_written lvl opts σ σ' L (callError err msg) HN)
    as (σ'' & Hd & Hiff & Hno).
  exists σ''. split; [exact Hd|]. simpl in Hiff, Hno.
  unfold LevelDebug, LevelDisabled, zerolog.ErrorLevel in *.
  destruct (zlevel_cases lvl) as [[-> E]|[[-> E]|[[-> E]|[HT E]]]];
    rewrite E in Hiff, Hno; (split; [rewrite Hiff; lia | intros; try lia]).
  apply Hno. lia.
Qed.

(** A requested level outside the four of the table (below LevelDebug or
    above LevelDisabled) gives a Logger on which every sequence of calls
    runs to its end without changing the state. *)
Theorem unmapped_level_is_silent (lvl : Level) (opts : list Option)
    (σ σ' : world) (L : Logger) (cs : list call) :
  New up dir lvl opts σ = (σ', (Some L, None)) ->
  lvl < LevelDebug \/ LevelDisabled < lvl ->
  levelMap !! lvl = None /\ run L cs σ' = Some σ'.
Proof.
  unfold LevelDebug, LevelDisabled. intros HN Hout. split.
  - rewrite levelMap_lookup.
    repeat match goal with
           | |- context [?a =? ?b] => destruct (Z.eqb_spec a b); [lia|]
           end. reflexivity.
  - induction cs as [|c cs IH]; [reflexivity|]. simpl.
    destruct (New_call_written lvl opts σ σ' L c HN) as (σ'' & -> & _ & Hno).
    simpl. rewrite Hno; [exact IH|].
    pose proof (call_backend_level_range c).
    destruct (zlevel_cases lvl) as [[-> E]|[[-> E]|[[-> E]|[HT E]]]]; lia.
Qed.

(** Once [init] has run, the console line of a written call shows the
    level code of the method: green INF for Info, white EVT for Event, cyan
    DBG for Debug and red ERR for Error, each followed by the reset
    sequence; the line is the first write and goes to the configured
    writer. *)
Theorem console_codes (lvl : Level) (opts : list Option) (σ σ' σ'' : world)
    (L : Logger) (c : call) (g : globals) :
  New up dir lvl opts σ = (σ', (Some L, None)) ->
  glob σ' = init g ->
  do_call L c σ' = Some σ'' ->
  trace σ'' <> trace σ' ->
  exists (line : zerolog.Line) (rest : list effect),
    trace σ''
    = (trace σ'
       ++ Write (writer (configure opts)) (zerolog.text line) :: rest)%list
    /\ zerolog.l_level line = call_code c
    /\ zerolog.l_time line = Some (clock σ' (ticks σ')).
Proof.
  intros HN Hg Hd Hne. pose proof (New_deref _ _ _ _ _ HN) as Hl.
  apply New_success in HN as (-> & _).
  pose proof (call_backend_level_range c) as Hr.
  destruct (do_call_cases _ _ c σ' Hl) as [[_ Hd']|(_ & fs & msg & Hd')];
    rewrite Hd' in Hd; [injection Hd as <-; congruence|].
  destruct (Msg_timestamped
              (zl (main_logger lvl (New_writers up (configure opts))))
              {| zerolog.ev_level := call_backend_level c;
                 zerolog.ev_fields := fs |} msg σ' eq_refl) as [EM _].
  { simpl. unfold zerolog.Disabled. lia. }
  rewrite EM in Hd. injection Hd as <-.
  eexists _, _. split; [reflexivity|]. simpl. rewrite Hg.
  split; [|reflexivity]. destruct c; reflexivity.
Qed.

(** New composed with ParseLevel fails closed: whatever the configuration
    string, a Debug call through the resulting Logger is written exactly
    when the string lower-cases to debug; any unrecognised string gives a
    Logger on which Debug changes nothing. *)
Theorem ParseLevel_New_fail_closed (tbl : Z -> Z) (s k v : string)
    (opts : list Option) (σ σ' : world) (L : Logger) :
  New up dir (ParseLevel tbl s) opts σ = (σ', (Some L, None)) ->
  exists σ'' : world,
    Logger_Debug L k v σ' = Some σ''
    /\ (trace σ'' <> trace σ' <-> strings_ToLower tbl s = "debug")
    /\ (strings_ToLower tbl s <> "debug" -> σ'' = σ').
Proof.
  intros HN.
  destruct (New_call_written _ opts σ σ' L (callDebug k v) HN)
    as (σ'' & Hd & Hiff & Hno).
  exists σ''. split; [exact Hd|]. simpl in Hiff, Hno.
  unfold zerolog.DebugLevel in *.
  destruct (ParseLevel_cases tbl s)
    as [[E H]|[[E H]|[[E H]|(N1 & N2 & N3 & H)]]];
    rewrite H in Hiff, Hno;
    unfold LevelDebug, LevelInfo, LevelEvent, LevelDisabled in *;
    match type of Hiff with
    | context [zlevel ?t] =>
        destruct (zlevel_cases t) as [[? Ez]|[[? Ez]|[[? Ez]|[? Ez]]]];
        try lia; rewrite Ez in Hiff, Hno
    end;
    (split; [rewrite Hiff; split; intros; try lia; try congruence
            | intros; try congruence; apply Hno; lia]).
Qed.

End Coverage.

(** * The level table *)

(** The table keeps the order of the four levels and sends no two of them
    to the same backend threshold; hence, for a logger built as New builds
    it, lowering the requested level never rejects a backend level that was
    accepted before. *)
Theorem levelMap_keeps_order (a b : Level) (ws : list zerolog.Writer)
    (lvl : zerolog.Level) :
  LevelDebug <= a -> a <= b -> b <= LevelDisabled ->
  zlevel a <= zlevel b
  /\ (zlevel a = zlevel b -> a = b)
  /\ (zerolog.should (zl (main_logger b ws)) lvl = true ->
      zerolog.should (zl (main_logger a ws)) lvl = true).
Proof.
  unfold LevelDebug, LevelDisabled. intros Ha Hab Hb.
  assert (zlevel a <= zlevel b /\ (zlevel a = zlevel b -> a = b)) as [H1 H2].
  { destruct (zlevel_cases a) as [[-> Ea]|[[-> Ea]|[[-> Ea]|[Ha' Ea]]]];
      destruct (zlevel_cases b) as [[-> Eb]|[[-> Eb]|[[-> Eb]|[Hb' Eb]]]];
      try rewrite Ea; try rewrite Eb; lia. }
  split; [exact H1|]. split; [exact H2|].
  unfold zerolog.should. simpl.
  rewrite !negb_true_iff, !orb_false_iff, !Z.ltb_ge. lia.
Qed.

(** * Chains of Scope *)

Lemma last_nonempty {A : Type} (xs : list A) : forall x d d' : A,
  List.last (x :: xs) d = List.last (x :: xs) d'.
Proof.
  induction xs as [|y xs IH]; intros x d d'; [reflexivity|].
  change (List.last (y :: xs) d = List.last (y :: xs) d'). apply IH.
Qed.

Lemma scope_chain_spec (names : list string) :
  forall (p : nat) (l : logger) (σ : world),
    deref p σ = Some l ->
    exists (p' : nat) (σ' : world),
      scope_chain (ptrLogger p) names σ = Some (ptrLogger p', σ')
      /\ deref p' σ'
         = Some {| zl := zl l; scope := List.last names (scope l) |}
      /\ trace σ' = trace σ
      /\ (forall q : nat,
            (q < length (heap σ))%nat -> heap σ' !! q = heap σ !! q)
      /\ length (heap σ') = (length (heap σ) + length names)%nat
      /\ p' = match names with
              | [] => p
              | _ => (length (heap σ) + length names - 1)%nat
              end.
Proof.
  induction names as [|n rest IH]; intros p l σ Hl.
  - exists p, σ. simpl. repeat split; try lia.
    destruct l; exact Hl.
  - set (o := objLogger {| zl := zl l; scope := n |}).
    destruct (IH (length (heap σ)) {| zl := zl l; scope := n |}
                (snd (alloc o σ)) (deref_alloc_new _ σ))
      as (p' & σ' & Hc & Hd & Ht & Hh & Hlen & Hp).
    exists p', σ'. simpl scope_chain. rewrite Hl. simpl.
    split; [exact Hc|]. simpl in Hd, Hh, Hlen, Hp.
    rewrite length_app in Hlen, Hh, Hp. simpl in Hlen, Hh, Hp.
    split; [|split; [exact Ht|split; [|split; [lia|]]]].
    + rewrite Hd. f_equal. f_equal.
      destruct rest as [|s rest]; [reflexivity|]. apply last_nonempty.
    + intros q Hq. rewrite Hh by lia. now rewrite lookup_app_l.
    + destruct rest as [|s rest]; simpl in Hp |- *; lia.
Qed.

(** Scope calls chained on a live logger do not pile labels up: the Logger
    at the end of the chain is a new struct with the first logger's backend
    value and the last name alone as its label; one struct is allocated per
    call, every struct that existed keeps its contents, and nothing is
    written.  When there is at least one call the Logger returned is the
    struct allocated last, so it is none of those that existed. *)
Theorem Scope_chain_keeps_last (names : list string) (p : nat) (l : logger)
    (σ : world) :
  deref p σ = Some l ->
  exists (p' : nat) (σ' : world),
    scope_chain (ptrLogger p) names σ = Some (ptrLogger p', σ')
    /\ deref p' σ' = Some {| zl := zl l; scope := List.last names (scope l) |}
    /\ deref p σ' = Some l
    /\ trace σ' = trace σ
    /\ length (heap σ') = (length (heap σ) + length names)%nat
    /\ (names <> [] ->
        p' = (length (heap σ) + length names - 1)%nat
        /\ (length (heap σ) <= p')%nat /\ p' <> p).
Proof.
  intros Hl.
  destruct (scope_chain_spec names p l σ Hl)
    as (p' & σ' & Hc & Hd & Ht & Hh & Hlen & Hp).
  assert (p < length (heap σ))%nat as Hlt.
  { unfold deref in Hl. destruct (heap σ !! p) eqn:E; [|discriminate].
    eapply lookup_lt_Some; eauto. }
  exists p', σ'.
  split; [exact Hc|]. split; [exact Hd|]. split; [|split; [exact Ht|split]].
  - unfold deref in *. rewrite Hh; [exact Hl | exact Hlt].
  - exact Hlen.
  - intros Hne. destruct names as [|n rest]; [congruence|].
    simpl in Hp |- *. lia.
Qed.

Lemma Msg_same_shape (z : zerolog.Logger) (ev1 ev2 : zerolog.Event)
    (m1 m2 : string) (σ : world) :
  zerolog.ev_level ev1 = zerolog.ev_level ev2 ->
  let σ1 := zerolog_Msg z (Some ev1) m1 σ in
  let σ2 := zerolog_Msg z (Some ev2) m2 σ in
  heap σ1 = heap σ2 /\ ticks σ1 = ticks σ2
  /\ destinations (trace σ1) = destinations (trace σ2).
Proof.
  intros E. unfold zerolog_Msg. rewrite E.
  destruct (zerolog.timestamp z),
    (zerolog.ev_level ev2 =? zerolog.Disabled); simpl;
    rewrite ?destinations_app, ?writes_destinations; repeat split.
Qed.

(** A Logger derived by Scope filters like its parent and writes where its
    parent writes: from the same state, the same call through either is
    accepted by both or by neither, reads the clock as often and reaches the
    same destinations in the same order. *)
Theorem Scope_same_filter (p : nat) (l : logger) (name : string)
    (σ σ' : world) (L' : Logger) (c : call) :
  deref p σ = Some l ->
  Logger_Scope (ptrLogger p) name σ = Some (L', σ') ->
  exists σ1 σ2 : world,
    do_call (ptrLogger p) c σ' = Some σ1
    /\ do_call L' c σ' = Some σ2
    /\ heap σ1 = heap σ2 /\ ticks σ1 = ticks σ2
    /\ destinations (trace σ1) = destinations (trace σ2)
    /\ (σ1 = σ' <-> σ2 = σ').
Proof.
  intros Hl HS.
  assert (L' = ptrLogger (length (heap σ))
          /\ σ' = snd (alloc (objLogger {| zl := zl l; scope := name |}) σ))
    as [-> ->].
  { simpl in HS. rewrite Hl in HS. simpl in HS. injection HS as <- <-.
    split; reflexivity. }
  clear HS.
  pose proof (deref_alloc_old
                (objLogger {| zl := zl l; scope := name |}) σ p l Hl) as H1.
  pose proof (deref_alloc_new {| zl := zl l; scope := name |} σ) as H2.
  set (σ' := snd (alloc (objLogger {| zl := zl l; scope := name |}) σ)) in *.
  destruct (do_call_cases _ _ c σ' H1) as [[S1 D1]|(S1 & f1 & m1 & D1)];
    destruct (do_call_cases _ _ c σ' H2) as [[S2 D2]|(S2 & f2 & m2 & D2)];
    simpl in S2; try congruence.
  - exists σ', σ'. rewrite D1, D2. repeat split; auto.
  - eexists _, _. split; [exact D1|]. split; [exact D2|].
    destruct (Msg_same_shape (zl l)
                {| zerolog.ev_level := call_backend_level c;
                   zerolog.ev_fields := f1 |}
                {| zerolog.ev_level := call_backend_level c;
                   zerolog.ev_fields := f2 |} m1 m2 σ' eq_refl)
      as (Hh & Ht & Hd).
    split; [exact Hh|]. split; [exact Ht|]. split; [exact Hd|].
    pose proof (call_backend_level_range c) as Hr.
    unfold zerolog_Msg. simpl.
    rewrite (proj2 (Z.eqb_neq (call_backend_level c) zerolog.Disabled))
      by (unfold zerolog.Disabled; lia).
    destruct (zerolog.timestamp (zl l)) eqn:Et.
    + split; intros H; apply (f_equal ticks) in H; simpl in H; lia.
    + destruct (zerolog.w (zl l)) as [|wr ws] eqn:Ew.
      * unfold writes. rewrite Ew. simpl. tauto.
      * split; intros H; apply (f_equal trace) in H; simpl in H;
          unfold writes in H; rewrite Ew in H; simpl in H;
          exfalso; eapply app_cons_neq; exact H.
Qed.

(** * ParseLevel and letter case *)

Lemma lower_byte_same (a b : ascii) :
  same_ignoring_case a b = true -> lower_byte a = lower_byte b.
Proof.
  unfold same_ignoring_case. intros H.
  apply orb_true_iff in H as [H|H]; [apply orb_true_iff in H as [H|H]|].
  - apply Ascii.eqb_eq in H. now subst.
  - apply andb_true_iff in H as [Hu E]. apply Z.eqb_eq in E.
    pose proof (proj1 (is_upper_byte_spec a) Hu) as Hr.
    unfold lower_byte. rewrite Hu.
    assert (is_upper_byte b = false) as ->.
    { apply not_true_is_false. rewrite is_upper_byte_spec. lia. }
    rewrite <- E. apply byte_of_val.
  - apply andb_true_iff in H as [Hu E]. apply Z.eqb_eq in E.
    pose proof (proj1 (is_upper_byte_spec b) Hu) as Hr.
    unfold lower_byte. rewrite Hu.
    assert (is_upper_byte a = false) as ->.
    { apply not_true_is_false. rewrite is_upper_byte_spec. lia. }
    rewrite <- E. symmetry. apply byte_of_val.
Qed.

Lemma lower_map_same (s : string) : forall t : string,
  equal_fold s t = true -> string_map lower_byte s = string_map lower_byte t.
Proof.
  induction s as [|a s IH]; intros [|b t]; simpl; try congruence.
  intros [Hab Hst]%andb_true_iff.
  now rewrite (lower_byte_same a b Hab), (IH t Hst).
Qed.

(** ParseLevel does not look at letter case: two ASCII strings that differ
    only in the case of their letters get the same level, whether or not
    they spell one of the three words. *)
Theorem ParseLevel_ignores_case (tbl : Z -> Z) (s t : string) :
  isASCII t = true -> equal_fold s t = true ->
  ParseLevel tbl s = ParseLevel tbl t.
Proof.
  intros Ha Hf. unfold ParseLevel.
  rewrite (ToLower_ascii tbl t Ha).
  rewrite (ToLower_ascii tbl s (equal_fold_ascii s t Hf Ha)).
  now rewrite (lower_map_same s t Hf).
Qed.

(** * Error with a nil error *)

(** Error called with a nil error writes the same record as with an error,
    message in Info's format at the error level, but with no error field at
    all; nothing is written when the level check rejects the call.  The
    message is the text as the backend's encoder writes it: the bracketed
    label, a space and the argument exactly when both are valid UTF-8, and
    with U+FFFD in place of every byte that starts no valid sequence
    otherwise. *)
Theorem Error_nil_has_no_field (l : logger) (σ : world) (m : string) :
  trace (logger_Error l None m σ)
  = (trace σ
     ++ (if zerolog.should (zl l) zerolog.ErrorLevel
         then
           writes
             {| zerolog.r_level :=
                  Some (zerolog.json_text
                          (LevelFieldMarshalFunc (glob σ) zerolog.ErrorLevel));
                zerolog.r_fields := [];
                zerolog.r_time :=
                  if zerolog.timestamp (zl l)
                  then Some (clock σ (ticks σ)) else None;
                zerolog.r_message :=
                  Some (zerolog.json_text
                          ("[" ++ scope l ++ "] " ++ m)%string) |} (zl l)
         else []))%list
  /\ (utf8.ValidString (scope l) = true -> utf8.ValidString m = true ->
      zerolog.json_text ("[" ++ scope l ++ "] " ++ m)%string
      = ("[" ++ scope l ++ "] " ++ m)%string).
Proof.
  split.
  - unfold logger_Error, zerolog.Error, zerolog.newEvent.
    destruct (zerolog.should (zl l) zerolog.ErrorLevel);
      [|simpl; now rewrite app_nil_r].
    unfold zerolog_Msgf, zerolog.Event_Err. rewrite trace_Msg by discriminate.
    rewrite Sprintf_Info. reflexivity.
  - intros Hs Hm. apply json_text_valid. valid_text.
Qed.

(** * Level tags after init *)

Lemma string_of_int_not_warn (i : Decimal.int) :
  NilZero.string_of_int i <> "warn".
Proof. destruct i as [d|d]; destruct d; discriminate. Qed.

(** After [init] no backend level is tagged warn: the backend's Warn level
    is tagged event, the Event level of the package, and every other level
    keeps the backend's own name. *)
Theorem no_level_is_tagged_warn (g : globals) (l : zerolog.Level) :
  LevelFieldMarshalFunc (init g) l <> "warn"
  /\ (l = zerolog.WarnLevel -> LevelFieldMarshalFunc (init g) l = "event")
  /\ (l <> zerolog.WarnLevel ->
      LevelFieldMarshalFunc (init g) l = zerolog.Level_String l).
Proof.
  simpl. unfold eventLevel, zerolog.WarnLevel.
  destruct (Z.eqb_spec l 2) as [->|N].
  - repeat split; try discriminate. congruence.
  - split; [|split; [congruence | reflexivity]].
    unfold zerolog.Level_String.
    repeat match goal with
           | |- context [if ?a =? ?b then _ else _] =>
               destruct (Z.eqb_spec a b); [try discriminate|]
           end.
    + subst. unfold zerolog.WarnLevel in N. congruence.
    + apply string_of_int_not_warn.
Qed.

(** * The further statements at concrete inputs *)

Lemma calls_only_write_witness :
  let σ := fst (New no_case dir_of LevelInfo [] (start os_ok)) in
  let σ' :=
    default σ
      (run (ptrLogger 0) [callInfo "server started"; callDebug "k" "v"] σ) in
  heap σ' = heap σ /\ (ticks σ <= ticks σ')%nat.
Proof.
  cbv zeta.
  destruct (calls_only_write (ptrLogger 0)
              [callInfo "server started"; callDebug "k" "v"]
              (fst (New no_case dir_of LevelInfo [] (start os_ok))) _ eq_refl)
    as (H1 & _ & _ & _ & H5 & _).
  split; [exact H1 | exact H5].
Defined.

Lemma New_with_file_witness :
  exists σ' : world,
    New no_case dir_of LevelDebug [WithFile "logs/app.log"] (start os_ok)
    = (σ', (Some (ptrLogger 0), None))
    /\ trace σ'
       = [MkdirAll "logs" 488;
          OpenFile "logs/app.log" [O_APPEND; O_CREATE; O_WRONLY] 420].
Proof.
  assert ("logs/app.log" <> "") as Hp by discriminate.
  destruct (New_with_file no_case dir_of LevelDebug [WithFile "logs/app.log"]
              (start os_ok) Hp eq_refl eq_refl) as (σ' & H1 & H2 & _).
  exists σ'. split; [exact H1 | exact H2].
Defined.

Lemma New_failure_effects_witness :
  trace (fst (New no_case dir_of LevelInfo [WithFile "logs/app.log"]
                (start os_no_mkdir)))
  = [MkdirAll "logs" 488]
  /\ trace (fst (New no_case dir_of LevelInfo [WithFile "logs/app.log"]
                   (start os_no_open)))
     = [MkdirAll "logs" 488;
        OpenFile "logs/app.log" [O_APPEND; O_CREATE; O_WRONLY] 420].
Proof.
  assert ("logs/app.log" <> "") as Hp by discriminate.
  split.
  - exact (proj1 (proj1 (New_failure_effects no_case dir_of LevelInfo
                           [WithFile "logs/app.log"] (start os_no_mkdir)
                           (plainError "permission denied") Hp) eq_refl)).
  - exact (proj1 (proj2 (New_failure_effects no_case dir_of LevelInfo
                           [WithFile "logs/app.log"] (start os_no_open)
                           (plainError "is a directory") Hp)
                    eq_refl eq_refl)).
Defined.

Lemma writes_reach_configured_only_witness :
  let σ' :=
    fst (New no_case dir_of LevelInfo [WithWriter (Buffer 0)] (start os_ok)) in
  let σ'' :=
    default σ'
      (run (ptrLogger 0) [callInfo "hello"; callEvent "signed up"] σ') in
  exists es : list effect,
    trace σ'' = es /\ forall d, In d (destinations es) -> d = Buffer 0.
Proof.
  cbv zeta.
  destruct (writes_reach_configured_only no_case dir_of LevelInfo
              [WithWriter (Buffer 0)]
              [callInfo "hello"; callEvent "signed up"]
              (start os_ok) _ _ (ptrLogger 0) eq_refl eq_refl)
    as (es & E & _ & D).
  exists es. split; [exact E|].
  intros d Hd. destruct (D d Hd) as [->|[N _]]; [reflexivity|].
  now destruct N.
Defined.

Lemma file_fan_out_witness :
  exists σ'' : world,
    do_call (ptrLogger 0) (callInfo "file test")
      (fst (New no_case dir_of LevelInfo [WithFile "tmp/sub/test.log"]
              (start os_ok)))
    = Some σ''.
Proof.
  assert ("tmp/sub/test.log" <> "") as Hp by discriminate.
  destruct (file_fan_out no_case dir_of LevelInfo
              [WithFile "tmp/sub/test.log"] (start os_ok) _ (ptrLogger 0)
              (callInfo "file test") eq_refl Hp) as (σ'' & H & _).
  exists σ''. exact H.
Defined.

Lemma records_are_timestamped_witness :
  exists σ'' : world,
    do_call (ptrLogger 0) (callInfo "hello")
      (fst (New no_case dir_of LevelInfo [] (start os_ok)))
    = Some σ''.
Proof.
  destruct (records_are_timestamped no_case dir_of LevelInfo []
              (start os_ok) _ (ptrLogger 0) (callInfo "hello") eq_refl)
    as (σ'' & H & _).
  exists σ''. exact H.
Defined.

Lemma Error_passes_below_Disabled_witness :
  exists σ'' : world,
    Logger_Error (ptrLogger 0) (Some (plainError "boom")) "failed"
      (fst (New no_case dir_of LevelEvent [] (start os_ok)))
    = Some σ''
    /\ (trace σ''
        <> trace (fst (New no_case dir_of LevelEvent [] (start os_ok)))
        <-> LevelDebug <= LevelEvent < LevelDisabled).
Proof.
  destruct (Error_passes_below_Disabled no_case dir_of LevelEvent []
              (start os_ok) _ (ptrLogger 0) (Some (plainError "boom"))
              "failed" eq_refl) as (σ'' & H1 & H2 & _).
  exists σ''. split; [exact H1 | exact H2].
Defined.

Lemma unmapped_level_is_silent_witness :
  run (ptrLogger 0)
    [callError (Some (plainError "boom")) "failed"; callInfo "hello"]
    (fst (New no_case dir_of 17 [] (start os_ok)))
  = Some (fst (New no_case dir_of 17 [] (start os_ok))).
Proof.
  assert (17 < LevelDebug \/ LevelDisabled < 17) as H
    by (right; reflexivity).
  exact (proj2 (unmapped_level_is_silent no_case dir_of 17 []
                  (start os_ok) _ (ptrLogger 0)
                  [callError (Some (plainError "boom")) "failed";
                   callInfo "hello"] eq_refl H)).
Defined.

Lemma console_codes_witness :
  let σ' := fst (New no_case dir_of LevelInfo [] (start os_ok)) in
  let σ'' :=
    default σ' (do_call (ptrLogger 0) (callEvent "user signed up") σ') in
  exists (line : zerolog.Line) (rest : list effect),
    trace σ'' = Write Stdout (zerolog.text line) :: rest
    /\ zerolog.l_level line = (colorWhite ++ "EVT" ++ colorReset)%string.
Proof.
  cbv zeta.
  assert (trace
            (default (fst (New no_case dir_of LevelInfo [] (start os_ok)))
               (do_call (ptrLogger 0) (callEvent "user signed up")
                  (fst (New no_case dir_of LevelInfo [] (start os_ok)))))
          <> trace (fst (New no_case dir_of LevelInfo [] (start os_ok))))
    as Hne by (vm_compute; discriminate).
  destruct (console_codes no_case dir_of LevelInfo [] (start os_ok) _ _
              (ptrLogger 0) (callEvent "user signed up")
              {| LevelFieldMarshalFunc := zerolog.Level_String |}
              eq_refl eq_refl eq_refl Hne) as (line & rest & E & C & _).
  exists line, rest. split; [exact E | exact C].
Defined.

Lemma ParseLevel_New_fail_closed_witness :
  exists σ'' : world,
    Logger_Debug (ptrLogger 0) "k" "v"
      (fst (New no_case dir_of (ParseLevel no_case "verbose") []
              (start os_ok)))
    = Some σ''.
Proof.
  destruct (ParseLevel_New_fail_closed no_case dir_of no_case "verbose"
              "k" "v" [] (start os_ok) _ (ptrLogger 0) eq_refl)
    as (σ'' & H & _).
  exists σ''. exact H.
Defined.

Lemma levelMap_keeps_order_witness :
  zlevel LevelInfo <= zlevel LevelDisabled.
Proof.
  assert (LevelDebug <= LevelInfo) as H1 by (vm_compute; discriminate).
  assert (LevelInfo <= LevelDisabled) as H2 by (vm_compute; discriminate).
  assert (LevelDisabled <= LevelDisabled) as H3 by (vm_compute; discriminate).
  exact (proj1 (levelMap_keeps_order LevelInfo LevelDisabled []
                  zerolog.InfoLevel H1 H2 H3)).
Defined.

Lemma Scope_chain_keeps_last_witness :
  exists (p' : nat) (σ' : world),
    scope_chain (ptrLogger 0) ["db"; "pool"]
      (fst (New no_case dir_of LevelInfo [] (start os_ok)))
    = Some (ptrLogger p', σ')
    /\ option_map scope (deref p' σ') = Some "pool".
Proof.
  destruct (Scope_chain_keeps_last ["db"; "pool"] 0 _
              (fst (New no_case dir_of LevelInfo [] (start os_ok))) eq_refl)
    as (p' & σ' & H1 & H2 & _).
  exists p', σ'. split; [exact H1|]. now rewrite H2.
Defined.

Lemma Scope_same_filter_witness :
  let σ := fst (New no_case dir_of LevelInfo [] (start os_ok)) in
  exists σ1 σ2 : world,
    do_call (ptrLogger 0) (callDebug "k" "v")
      (snd (logger_Scope (main_logger LevelInfo (New_writers no_case
              (configure []))) "db" σ)) = Some σ1
    /\ do_call (ptrLogger 1) (callDebug "k" "v")
         (snd (logger_Scope (main_logger LevelInfo (New_writers no_case
                 (configure []))) "db" σ)) = Some σ2
    /\ ticks σ1 = ticks σ2.
Proof.
  cbv zeta.
  destruct (Scope_same_filter 0 _ "db"
              (fst (New no_case dir_of LevelInfo [] (start os_ok))) _
              (ptrLogger 1) (callDebug "k" "v") eq_refl eq_refl)
    as (σ1 & σ2 & H1 & H2 & _ & H4 & _).
  exists σ1, σ2. split; [exact H1|]. split; [exact H2 | exact H4].
Defined.

Lemma ParseLevel_ignores_case_witness :
  ParseLevel no_case "InFo" = ParseLevel no_case "info"
  /\ ParseLevel no_case "WARN" = ParseLevel no_case "warn".
Proof.
  split.
  - exact (ParseLevel_ignores_case no_case "InFo" "info" eq_refl eq_refl).
  - exact (ParseLevel_ignores_case no_case "WARN" "warn" eq_refl eq_refl).
Defined.

Lemma no_level_is_tagged_warn_witness :
  LevelFieldMarshalFunc
    (init {| LevelFieldMarshalFunc := zerolog.Level_String |})
    zerolog.WarnLevel = "event"
  /\ LevelFieldMarshalFunc
       (init {| LevelFieldMarshalFunc := zerolog.Level_String |})
       zerolog.ErrorLevel = "error".
Proof.
  split.
  - exact (proj1 (proj2 (no_level_is_tagged_warn
                           {| LevelFieldMarshalFunc := zerolog.Level_String |}
                           zerolog.WarnLevel)) eq_refl).
  - apply (proj2 (proj2 (no_level_is_tagged_warn
                           {| LevelFieldMarshalFunc := zerolog.Level_String |}
                           zerolog.ErrorLevel))).
    discriminate.
Defined.

Lemma Error_nil_has_no_field_witness :
  zerolog.json_text "[main] disk full" = "[main] disk full".
Proof.
  exact (proj2 (Error_nil_has_no_field (main_logger LevelInfo [])
                  (start os_ok) "disk full") eq_refl eq_refl).
Defined.
